(** * Sudar backend: the authentication utilities of [be/api/authUtils.py]

    A shallow embedding of the password policy, the password hashing, the
    JWT helpers and the cookie authentication gate, together with the
    properties the specification states about them.

    Conventions of the embedding:
    - a Python [str] is a Rocq [string], one [ascii] per character (code
      points below 256);
    - a raised exception is a value of [exn]; a function that may raise
      returns a [result];
    - the wall clock ([datetime.utcnow()]) is an explicit argument, in
      microseconds since the epoch; a [timedelta] is a number of
      microseconds;
    - a random draw is an explicit argument;
    - a Python [dict] that is passed by reference lives in a heap of
      dictionaries and is named by its location. *)

From Stdlib Require Import ZArith Lia Bool Ascii String.
From stdpp Require Import base option list strings pretty gmap fin_maps.

Set Warnings "-register-all,-clear-no-such-hyp".
Local Open Scope string_scope.
Local Open Scope Z_scope.

(** ** Exceptions and results *)

Module Py.

(** The exception classes in play: FastAPI's
    [HTTPException(status_code, detail, headers)], the builtins, and
    python-jose's [JWTError] with its subclasses [ExpiredSignatureError]
    and [JWTClaimsError]. *)
Inductive exn : Type :=
| HTTPException (status_code : Z) (detail : string)
    (headers : option (list (string * string)))
| TypeError
| ValueError
| AttributeError
| JWTError
| ExpiredSignatureError
| JWTClaimsError.

Inductive result (A : Type) : Type :=
| Return (a : A)
| Raise (e : exn).
Arguments Return {A} a.
Arguments Raise {A} e.

Definition bind {A B : Type} (m : result A) (k : A -> result B) : result B :=
  match m with
  | Return a => k a
  | Raise e => Raise e
  end.

(** [status.HTTP_400_BAD_REQUEST] and [status.HTTP_401_UNAUTHORIZED]. *)
Definition HTTP_400_BAD_REQUEST : Z := 400.
Definition HTTP_401_UNAUTHORIZED : Z := 401.

(** [not o] for a value that is [None] or an object. *)
Definition is_none {A : Type} (o : option A) : bool :=
  match o with
  | None => true
  | Some _ => false
  end.

(** [try: m except cls: handler], for a class given by its members. *)
Definition try_except {A : Type} (m : result A) (cls : exn -> bool)
    (handler : result A) : result A :=
  match m with
  | Return a => Return a
  | Raise e => if cls e then handler else Raise e
  end.

(** [s.lower()], for characters below code point 256. *)
Definition lower_char (c : ascii) : ascii :=
  let n := Ascii.N_of_ascii c in
  if (((65 <=? n) && (n <=? 90))
      || ((192 <=? n) && (n <=? 222) && negb (n =? 215)))%N
  then Ascii.ascii_of_N (n + 32)
  else c.

Fixpoint lower (s : string) : string :=
  match s with
  | EmptyString => EmptyString
  | String c rest => String (lower_char c) (lower rest)
  end.

Definition status_of (e : exn) : option Z :=
  match e with
  | HTTPException s _ _ => Some s
  | _ => None
  end.

Definition detail_of (e : exn) : option string :=
  match e with
  | HTTPException _ d _ => Some d
  | _ => None
  end.

End Py.
Export Py.

Declare Scope py_scope.
Delimit Scope py_scope with py.
Notation "x <- m ;; k" := (Py.bind m (fun x => k))
  (at level 100, m at next level, right associativity) : py_scope.
Notation "m ;;; k" := (Py.bind m (fun _ => k))
  (at level 100, right associativity) : py_scope.
Local Open Scope py_scope.

(** ** Password policy: [validate_password] *)

Module Password.

(** The characters of a [str], in order. *)
Fixpoint chars (s : string) : list ascii :=
  match s with
  | EmptyString => []
  | String c rest => c :: chars rest
  end.

(** The character class [[A-Za-z]]. *)
Definition is_letter (c : ascii) : bool :=
  let n := Z.of_N (Ascii.N_of_ascii c) in
  ((65 <=? n) && (n <=? 90)) || ((97 <=? n) && (n <=? 122)).

(** The character class [\d]: below code point 256 the decimal digits are
    exactly [0] to [9]. *)
Definition is_digit (c : ascii) : bool :=
  let n := Z.of_N (Ascii.N_of_ascii c) in
  (48 <=? n) && (n <=? 57).

(** [re.search(cls, s)] for a pattern that is a single character class:
    the scan stops at the first character of the class. *)
Fixpoint re_search (cls : ascii -> bool) (s : string) : option ascii :=
  match s with
  | EmptyString => None
  | String c rest => if cls c then Some c else re_search cls rest
  end.

Definition too_short_detail : string :=
  "Password must be at least 6 characters long.".
Definition no_letter_detail : string :=
  "Password must contain at least one letter.".
Definition no_number_detail : string :=
  "Password must contain at least one number.".

Definition bad_request (detail : string) : exn :=
  HTTPException HTTP_400_BAD_REQUEST detail None.

Definition validate_password (password : string) : result unit :=
  if Z.of_nat (String.length password) <? 6 then
    Raise (bad_request too_short_detail)
  else if is_none (re_search is_letter password) then
    Raise (bad_request no_letter_detail)
  else if is_none (re_search is_digit password) then
    Raise (bad_request no_number_detail)
  else Return tt.

End Password.

(** ** JSON values, dictionaries and compact tokens *)

Module Json.

(** What [json.loads] returns.  Numbers are integers: a claim that is a
    float is outside the embedding. *)
Inductive json : Type :=
| JNull
| JBool (b : bool)
| JInt (n : Z)
| JStr (s : string)
| JArr (items : list json)
| JObj (members : list (string * json)).

(** [isinstance(v, str)]. *)
Definition is_str (v : json) : bool :=
  match v with
  | JStr _ => true
  | _ => false
  end.

(** [v == s] for a [str] [s]. *)
Definition eq_str (v : json) (s : string) : bool :=
  match v with
  | JStr s' => String.eqb s' s
  | _ => false
  end.

(** [d.get(k)]: a member that is JSON [null] reads as [None] too. *)
Definition get (d : gmap string json) (k : string) : option json :=
  match d !! k with
  | Some JNull => None
  | o => o
  end.

(** A value held by a Python [dict] of claims: a JSON value, or a
    [datetime] (microseconds since the epoch). *)
Inductive pyval : Type :=
| Json (v : json)
| Datetime (us : Z).

Definition as_json (v : pyval) : option json :=
  match v with
  | Json j => Some j
  | Datetime _ => None
  end.

(** The payload segment of a compact token: a JSON object, or bytes that
    are not one. *)
Inductive payload : Type :=
| PObject (claims : gmap string json)
| PInvalid (raw : string).

(** A token string, read through python-jose's parser: the compact
    serialisation of a header object, a payload and a signature segment,
    or a string that is no such serialisation. *)
Record jws : Type := {
  jws_header : gmap string json;
  jws_payload : payload;
  jws_signature : string
}.

Inductive token : Type :=
| Compact (j : jws)
| Malformed (raw : string).

(** The bytes a signature covers: the header and payload segments. *)
Definition signing_input : Type := (gmap string json * payload)%type.

End Json.
Export Json.

(** ** The libraries the module calls

    What [os], [hmac]/[hashlib] (through python-jose), [bcrypt], [uuid] and
    the [int] constructor compute is not part of the repository: the
    embedding takes each as an operation of the platform it runs on.  No
    property below assumes anything about these operations. *)

Class Platform : Type := {
  (** [os.getenv(name)]: the process environment. *)
  getenv : string -> option string;
  (** HMAC-SHA256 of a signing input under a key, as the signature
      segment of a compact token. *)
  hmac_sha256 : string -> signing_input -> string;
  (** [int(s)] for a [str]: [None] is [ValueError]. *)
  int_of_str : string -> option Z;
  (** The 31 digest characters bcrypt derives from a 29-character setting
      string ([$2b$12$] and the encoded salt) and a password. *)
  bcrypt_digest : string -> string -> string;
  (** [uuid.UUID(s)] as the 128-bit integer of the identifier: [None] is
      [ValueError]. *)
  uuid_of_str : string -> option Z;
  (** [str(u)] for a [uuid.UUID]. *)
  str_of_uuid : Z -> string
}.

(** ** Password hashing: [hash_password], [check_user_password] *)

Module Bcrypt.
Section WithPlatform.
Context `{Platform}.

(** [bcrypt.gensalt()]: the prefix for 12 rounds, followed by the encoding
    of 16 fresh random bytes ([raw], 22 characters). *)
Definition gensalt (raw : string) : string := "$2b$12$" +:+ raw.

(** The setting string is the first 29 characters of a salt or of a hash. *)
Definition setting_of (salt_or_hash : string) : string :=
  substring 0 29 salt_or_hash.

(** [bcrypt.hashpw(password, salt)]: the setting string followed by the
    digest.  bcrypt rejects a malformed setting string with [ValueError];
    every setting string below comes from [gensalt] or from a stored hash. *)
Definition hashpw (password salt : string) : string :=
  setting_of salt +:+ bcrypt_digest (setting_of salt) password.

(** [bcrypt.checkpw(password, hashed)]: hash again under the setting string
    of [hashed] and compare. *)
Definition checkpw (password hashed : string) : bool :=
  String.eqb (hashpw password hashed) hashed.

(** The UTF-8 bytes of a password and of a hash stand for the [str]
    itself: ['utf-8'] encoding is injective and bcrypt's output is ASCII. *)
Definition check_user_password (plain_password hashed_password : string) : bool :=
  checkpw plain_password hashed_password.

(** [raw] is the draw [bcrypt.gensalt()] makes in this call. *)
Definition hash_password (raw : string) (password : string) : string :=
  let password_bytes := password in
  let salt := gensalt raw in
  let hashed_password := hashpw password_bytes salt in
  hashed_password.

End WithPlatform.
End Bcrypt.

(** ** Verification codes: [generate_verification_code] *)

Module Code.

(** [string.digits]. *)
Definition digits : vec ascii 10 :=
  [# "0"; "1"; "2"; "3"; "4"; "5"; "6"; "7"; "8"; "9" ]%char.

(** [random.choices(population, k=k)]: [draw i] is the index the [i]-th
    draw selects, below the size of the population. *)
Definition random_choices {A : Type} {n : nat} (population : vec A n)
    (draw : nat -> fin n) (k : nat) : list A :=
  (fun i => population !!! draw i) <$> seq 0 k.

(** [''.join(cs)]. *)
Fixpoint join (cs : list ascii) : string :=
  match cs with
  | [] => EmptyString
  | c :: rest => String c (join rest)
  end.

Definition generate_verification_code (draw : nat -> fin 10) (length : nat) : string :=
  join (random_choices digits draw length).

(** The default [length=6]. *)
Definition DEFAULT_CODE_LENGTH : nat := 6.

End Code.

(** ** python-jose: [jwt.encode] and [jwt.decode] *)

Module Jose.
Section WithPlatform.
Context `{Platform}.

(** [timegm(dt.utctimetuple())]: whole seconds, the microseconds dropped. *)
Definition timegm (us : Z) : Z := us `div` 1000000.

(** [if isinstance(claims.get(k), datetime): claims[k] = timegm(...)]. *)
Definition convert_time_claim (v : pyval) : pyval :=
  match v with
  | Datetime us => Json (JInt (timegm us))
  | Json j => Json j
  end.

Definition convert_time_claims (claims : gmap string pyval) : gmap string pyval :=
  foldl (fun c k => alter convert_time_claim k c) claims ["exp"; "iat"; "nbf"].

(** [json.dumps] of the claims: a [datetime] left in the dictionary is not
    serialisable. *)
Definition dumps (claims : gmap string pyval) : result (gmap string json) :=
  if bool_decide (map_Forall (fun _ v => is_Some (as_json v)) claims)
  then Return (omap as_json claims)
  else Raise TypeError.

Definition jose_header (algorithm : string) : gmap string json :=
  <["typ" := JStr "JWT"]> (<["alg" := JStr algorithm]> ∅).

(** [jws.sign(claims, key, algorithm=algorithm)].  Of python-jose's
    algorithms only HS256, the one the module uses, has a signer here. *)
Definition jws_sign (claims : gmap string json) (key algorithm : string)
    : result token :=
  if String.eqb algorithm "HS256" then
    let header := jose_header algorithm in
    let body := PObject claims in
    Return (Compact {| jws_header := header;
                       jws_payload := body;
                       jws_signature := hmac_sha256 key (header, body) |})
  else Raise JWTError.

(** [jwt.encode(claims, key, algorithm=algorithm)]: the dictionary as the
    call leaves it (the time claims are converted in place), and the
    token or the exception. *)
Definition encode (claims : gmap string pyval) (key algorithm : string)
    : gmap string pyval * result token :=
  let claims := convert_time_claims claims in
  (claims, (payload <- dumps claims ;; jws_sign payload key algorithm)).

(** [jws.verify(token, key, algorithms)]: the payload of a well-formed
    token whose [alg] is allowed and whose signature matches. *)
Definition jws_verify (t : token) (key : string) (algorithms : list string)
    : result payload :=
  match t with
  | Malformed _ => Raise JWTError
  | Compact j =>
      match jws_header j !! "alg" with
      | Some (JStr alg) =>
          if bool_decide (alg ∈ algorithms) && String.eqb alg "HS256" then
            if String.eqb (jws_signature j)
                 (hmac_sha256 key (jws_header j, jws_payload j))
            then Return (jws_payload j)
            else Raise JWTError
          else Raise JWTError
      | _ => Raise JWTError
      end
  end.

(** [int(v)] inside [try: ... except ValueError: raise JWTClaimsError]:
    a [str] that is no integer literal is caught, a value [int] does not
    accept raises [TypeError], which is not. *)
Definition claim_int (v : json) : result Z :=
  match v with
  | JInt n => Return n
  | JBool b => Return (if b then 1 else 0)
  | JStr s =>
      match int_of_str s with
      | Some n => Return n
      | None => Raise JWTClaimsError
      end
  | JNull | JArr _ | JObj _ => Raise TypeError
  end.

Definition validate_iat (claims : gmap string json) : result unit :=
  match claims !! "iat" with
  | None => Return tt
  | Some v => claim_int v ;;; Return tt
  end.

Definition validate_nbf (now leeway : Z) (claims : gmap string json) : result unit :=
  match claims !! "nbf" with
  | None => Return tt
  | Some v =>
      nbf <- claim_int v ;;
      if now + leeway <? nbf then Raise JWTClaimsError else Return tt
  end.

Definition validate_exp (now leeway : Z) (claims : gmap string json) : result unit :=
  match claims !! "exp" with
  | None => Return tt
  | Some v =>
      exp <- claim_int v ;;
      if exp <? now - leeway then Raise ExpiredSignatureError else Return tt
  end.

(** With [audience=None] no list of strings contains the audience. *)
Definition validate_aud (audience : option string) (claims : gmap string json)
    : result unit :=
  match claims !! "aud" with
  | None => Return tt
  | Some v =>
      let audience_claims :=
        match v with
        | JStr s => Some [JStr s]
        | JArr items => Some items
        | _ => None
        end in
      match audience_claims with
      | None => Raise JWTClaimsError
      | Some items =>
          if existsb (fun c => negb (is_str c)) items then Raise JWTClaimsError
          else
            match audience with
            | Some a =>
                if existsb (fun c => eq_str c a) items then Return tt
                else Raise JWTClaimsError
            | None => Raise JWTClaimsError
            end
      end
  end.

Definition validate_iss (issuer : option string) (claims : gmap string json)
    : result unit :=
  match issuer with
  | None => Return tt
  | Some i =>
      match get claims "iss" with
      | Some v => if eq_str v i then Return tt else Raise JWTClaimsError
      | None => Raise JWTClaimsError
      end
  end.

Definition validate_sub (subject : option string) (claims : gmap string json)
    : result unit :=
  match claims !! "sub" with
  | None => Return tt
  | Some v =>
      if negb (is_str v) then Raise JWTClaimsError
      else
        match subject with
        | Some s => if eq_str v s then Return tt else Raise JWTClaimsError
        | None => Return tt
        end
  end.

Definition validate_jti (claims : gmap string json) : result unit :=
  match claims !! "jti" with
  | None => Return tt
  | Some v => if negb (is_str v) then Raise JWTClaimsError else Return tt
  end.

(** [access_token] is [None]: an [at_hash] claim has nothing to be
    compared against. *)
Definition validate_at_hash (claims : gmap string json) : result unit :=
  match claims !! "at_hash" with
  | None => Return tt
  | Some _ => Raise JWTClaimsError
  end.

(** [_validate_claims] with the default options ([leeway] 0) and no
    [audience], [issuer], [subject] or [access_token]: the checks in
    python-jose's order. *)
Definition validate_claims (now : Z) (claims : gmap string json) : result unit :=
  validate_iat claims ;;;
  validate_nbf now 0 claims ;;;
  validate_exp now 0 claims ;;;
  validate_aud None claims ;;;
  validate_iss None claims ;;;
  validate_sub None claims ;;;
  validate_jti claims ;;;
  validate_at_hash claims.

(** [jwt.decode(token, key, algorithms=algorithms)] when the clock reads
    [now_us]. *)
Definition decode (now_us : Z) (t : token) (key : string)
    (algorithms : list string) : result (gmap string json) :=
  payload <- jws_verify t key algorithms ;;
  match payload with
  | PInvalid _ => Raise JWTError
  | PObject claims =>
      validate_claims (timegm now_us) claims ;;;
      Return claims
  end.

End WithPlatform.
End Jose.

(** ** Rows of the store *)

Module Models.

(** Modelled from the spec: the [Teacher] model of [api/models.py], which
    is not among the sources; the fields are the ones the specification's
    data model lists and the tests read. *)
Record Teacher : Type := {
  teacher_id : Z;
  email : string;
  teacher_name : string;
  hashed_password : string;
  reset_password_code : option string;
  code_expiry_time : option Z
}.

(** Modelled from the spec: the [EmailVerificationCode] model of
    [api/models.py]: one row per email, holding the code and its expiry. *)
Record EmailVerificationCode : Type := {
  code : string;
  expiry_time : Z
}.

(** The store: the teacher table, and the verification codes keyed by
    their unique email. *)
Record db : Type := {
  teachers : list Teacher;
  verification_codes : gmap string EmailVerificationCode
}.

End Models.
Export Models.

(** ** Tokens and the authentication gate: [authUtils.py] *)

Module AuthUtils.

(** The dictionaries of the running program, by location. *)
Abbreviation loc := positive (only parsing).
Abbreviation heap := (gmap positive (gmap string pyval)) (only parsing).

Section WithPlatform.
Context `{Platform}.

(** The module's globals.  A function reads a global when it is called,
    so each function below takes the globals it runs under. *)
Record globals : Type := {
  SECRET_KEY : string;
  ALGORITHM : string;
  ACCESS_TOKEN_EXPIRE_MINUTES : Z;
  REFRESH_TOKEN_EXPIRE_DAYS : Z;
  COOKIE_DOMAIN : option string;
  COOKIE_SECURE : bool;
  COOKIE_SAMESITE : string
}.

(** The values the module's top-level assignments give them at import. *)
Definition initial_globals : globals := {|
  SECRET_KEY := default "your-secret-key-change-in-production" (getenv "SECRET_KEY");
  ALGORITHM := "HS256";
  ACCESS_TOKEN_EXPIRE_MINUTES := 600;
  REFRESH_TOKEN_EXPIRE_DAYS := 7;
  COOKIE_DOMAIN := getenv "COOKIE_DOMAIN";
  COOKIE_SECURE := String.eqb (lower (default "False" (getenv "COOKIE_SECURE"))) "true";
  COOKIE_SAMESITE := default "lax" (getenv "COOKIE_SAMESITE")
|}.

(** [timedelta(minutes=m)] and [timedelta(days=d)], in microseconds. *)
Definition timedelta_minutes (m : Z) : Z := m * 60 * 1000000.
Definition timedelta_days (d : Z) : Z := d * 24 * 60 * 60 * 1000000.


(** [d.copy()]: a new dictionary with the entries of [d]. *)
Definition dict_copy (d : loc) (h : heap) : loc * heap :=
  let l := fresh (dom h) in
  (l, <[l := default ∅ (h !! d)]> h).

(** [d.update({k1: v1, ...})]: in place. *)
Definition dict_update (d : loc) (entries : list (string * pyval)) (h : heap) : heap :=
  alter (fun m => foldl (fun m kv => <[kv.1 := kv.2]> m) m entries) d h.

(** [jwt.encode(d, key, algorithm=...)] on a dictionary of the heap. *)
Definition jwt_encode (d : loc) (key algorithm : string) (h : heap)
    : result token * heap :=
  let r := Jose.encode (default ∅ (h !! d)) key algorithm in
  (r.2, <[d := r.1]> h).

(** [if expires_delta:] holds for a [timedelta] other than zero. *)
Definition expiry (now : Z) (expires_delta : option Z) (default_delta : Z) : Z :=
  match expires_delta with
  | Some delta => if delta =? 0 then now + default_delta else now + delta
  | None => now + default_delta
  end.

(** [now] is what [datetime.utcnow()] reads during the call. *)
Definition create_access_token (g : globals) (now : Z) (data : loc)
    (expires_delta : option Z) (h : heap) : result token * heap :=
  let '(to_encode, h) := dict_copy data h in
  let expire := expiry now expires_delta
                  (timedelta_minutes (ACCESS_TOKEN_EXPIRE_MINUTES g)) in
  let h := dict_update to_encode
             [("exp", Datetime expire); ("type", Json (JStr "access"))] h in
  jwt_encode to_encode (SECRET_KEY g) (ALGORITHM g) h.

Definition create_refresh_token (g : globals) (now : Z) (data : loc)
    (expires_delta : option Z) (h : heap) : result token * heap :=
  let '(to_encode, h) := dict_copy data h in
  let expire := expiry now expires_delta
                  (timedelta_days (REFRESH_TOKEN_EXPIRE_DAYS g)) in
  let h := dict_update to_encode
             [("exp", Datetime expire); ("type", Json (JStr "refresh"))] h in
  jwt_encode to_encode (SECRET_KEY g) (ALGORITHM g) h.

Definition is_JWTError (e : exn) : bool :=
  match e with
  | JWTError | ExpiredSignatureError | JWTClaimsError => true
  | _ => false
  end.

Definition unauthorized (detail : string) : exn :=
  HTTPException HTTP_401_UNAUTHORIZED detail (Some [("WWW-Authenticate", "Bearer")]).

Definition decode_token (g : globals) (now : Z) (t : token)
    : result (gmap string json) :=
  try_except (Jose.decode now t (SECRET_KEY g) [ALGORITHM g]) is_JWTError
    (Raise (unauthorized "Could not validate credentials")).

(** A cookie as [response.set_cookie] records it. *)
Record cookie : Type := {
  value : token;
  httponly : bool;
  secure : bool;
  samesite : string;
  max_age : Z;
  domain : option string;
  path : string
}.

(** [set_auth_cookies(response, access_token, refresh_token)], on the
    cookies of the response. *)
Definition set_auth_cookies (g : globals) (response : gmap string cookie)
    (access_token refresh_token : token) : gmap string cookie :=
  let response :=
    <["access_token" :=
        {| value := access_token;
           httponly := true;
           secure := COOKIE_SECURE g;
           samesite := COOKIE_SAMESITE g;
           max_age := ACCESS_TOKEN_EXPIRE_MINUTES g * 60;
           domain := COOKIE_DOMAIN g;
           path := "/" |}]> response in
  <["refresh_token" :=
      {| value := refresh_token;
         httponly := true;
         secure := COOKIE_SECURE g;
         samesite := COOKIE_SAMESITE g;
         max_age := REFRESH_TOKEN_EXPIRE_DAYS g * 24 * 60 * 60;
         domain := COOKIE_DOMAIN g;
         path := "/" |}]> response.

(** [UUID(teacher_id)]: a value that is not a [str] has no [replace]. *)
Definition UUID (teacher_id : json) : result Z :=
  match teacher_id with
  | JStr s =>
      match uuid_of_str s with
      | Some u => Return u
      | None => Raise ValueError
      end
  | _ => Raise AttributeError
  end.

Definition is_ValueError (e : exn) : bool :=
  match e with
  | ValueError => true
  | _ => false
  end.

(** [db.query(Teacher).filter(Teacher.teacher_id == u).first()]. *)
Definition teacher_by_id (u : Z) (rows : list Teacher) : option Teacher :=
  find (fun t => teacher_id t =? u) rows.

(** [access_token] is the cookie: [None] when the request carries none.
    [not access_token] holds for [None] and for the empty string. *)
Definition get_current_teacher (g : globals) (now : Z)
    (access_token : option token) (rows : list Teacher) : result Teacher :=
  match access_token with
  | None | Some (Malformed EmptyString) =>
      Raise (unauthorized "Not authenticated")
  | Some t =>
      payload <- decode_token g now t ;;
      if negb (from_option (fun v => eq_str v "access") false (get payload "type"))
      then Raise (unauthorized "Invalid token type")
      else
        match get payload "sub" with
        | None => Raise (unauthorized "Could not validate credentials")
        | Some teacher_id =>
            teacher_uuid <-
              try_except (UUID teacher_id) is_ValueError
                (Raise (unauthorized "Invalid teacher ID format")) ;;
            match teacher_by_id teacher_uuid rows with
            | None => Raise (unauthorized "Teacher not found")
            | Some teacher => Return teacher
            end
        end
  end.

End WithPlatform.
End AuthUtils.

(** ** The authentication endpoints

    The router of the [/auth] endpoints is not among the sources; the tests
    that drive it are.  Each endpoint below follows the specification's
    description (sections 4.4, 4.5 and 4.7), with the status codes and
    messages the tests read, and calls the functions of [authUtils.py]
    where the specification says it hashes, validates or issues. *)

Module Endpoints.
Section WithPlatform.
Context `{Platform}.

(** Modelled from the spec: the validity window of a verification or reset
    code, in minutes ("fixed short window, e.g. 10 minutes: exact value is
    a configuration constant"). *)
Variable CODE_EXPIRE_MINUTES : Z.

(** What an endpoint answers: the status, the JSON body, the cookies it
    sets. *)
Record response : Type := {
  status : Z;
  body : gmap string json;
  cookies : gmap string AuthUtils.cookie
}.

Definition bad_request (detail : string) : exn :=
  HTTPException HTTP_400_BAD_REQUEST detail None.

Definition teacher_by_email (e : string) (rows : list Teacher) : option Teacher :=
  find (fun t => String.eqb (email t) e) rows.

(** The public fields of a teacher: never the hash. *)
Definition public_fields (t : Teacher) (message : string) : gmap string json :=
  <["teacher_id" := JStr (str_of_uuid (teacher_id t))]>
    (<["email" := JStr (email t)]>
       (<["teacher_name" := JStr (teacher_name t)]>
          (<["message" := JStr message]> ∅))).

(** Modelled from the spec: issuing the access and the refresh token of a
    teacher with the default lifetimes, for a fresh claims dictionary that
    holds the subject identifier. *)
Definition issue_tokens (g : AuthUtils.globals) (now : Z) (u : Z)
    : result (token * token) :=
  let data : AuthUtils.loc := 1%positive in
  let h : AuthUtils.heap := {[ data := {[ "sub" := Json (JStr (str_of_uuid u)) ]} ]} in
  let '(a, h) := AuthUtils.create_access_token g now data None h in
  let '(r, _) := AuthUtils.create_refresh_token g now data None h in
  access <- a ;; refresh <- r ;; Return (access, refresh).

(** Modelled from the spec: [request_code(email, teacher_name)], the
    endpoint [POST /auth/send-verification-code].  [draw] is the random
    source of the code.  The email collaborator changes neither the store
    nor the stored code. *)
Definition send_verification_code (now : Z) (draw : nat -> fin 10)
    (req_email req_teacher_name : string) (s : db) : result response * db :=
  match teacher_by_email req_email (teachers s) with
  | Some _ => (Raise (bad_request "Email already registered"), s)
  | None =>
      let row := {| code := Code.generate_verification_code draw Code.DEFAULT_CODE_LENGTH;
                    expiry_time := now + AuthUtils.timedelta_minutes CODE_EXPIRE_MINUTES |} in
      (Return {| status := 200;
                 body := <["message" := JStr "Verification code sent to your email"]>
                           (<["email" := JStr req_email]> ∅);
                 cookies := ∅ |},
       {| teachers := teachers s;
          verification_codes := <[req_email := row]> (verification_codes s) |})
  end.

(** Modelled from the spec: [complete_signup(email, teacher_name, password,
    code)], the endpoint [POST /auth/signup].  [new_id] is the identifier
    the new row receives and [raw_salt] the draw of the password hash. *)
Definition signup (g : AuthUtils.globals) (now : Z) (new_id : Z) (raw_salt : string)
    (req_email req_teacher_name req_password req_code : string) (s : db)
    : result response * db :=
  match verification_codes s !! req_email with
  | None => (Raise (bad_request "No verification code found"), s)
  | Some row =>
      if negb (String.eqb (code row) req_code) then
        (Raise (bad_request "Invalid verification code"), s)
      else if expiry_time row <? now then
        (Raise (bad_request "Verification code has expired"), s)
      else
        match Password.validate_password req_password with
        | Raise e => (Raise e, s)
        | Return _ =>
            let teacher := {| teacher_id := new_id;
                              email := req_email;
                              teacher_name := req_teacher_name;
                              hashed_password := Bcrypt.hash_password raw_salt req_password;
                              reset_password_code := None;
                              code_expiry_time := None |} in
            let s' := {| teachers := (teachers s ++ [teacher])%list;
                         verification_codes := delete req_email (verification_codes s) |} in
            ((toks <- issue_tokens g now new_id ;;
              Return {| status := 201;
                        body := public_fields teacher "Account created successfully";
                        cookies := AuthUtils.set_auth_cookies g ∅ toks.1 toks.2 |}),
             s')
        end
  end.

Definition login_failure : exn :=
  HTTPException HTTP_401_UNAUTHORIZED "Invalid email or password" None.

(** Modelled from the spec: [login(email, password)], the endpoint
    [POST /auth/login]. *)
Definition login (g : AuthUtils.globals) (now : Z) (req_email req_password : string) (s : db)
    : result response :=
  match teacher_by_email req_email (teachers s) with
  | None => Raise login_failure
  | Some teacher =>
      if negb (Bcrypt.check_user_password req_password (hashed_password teacher))
      then Raise login_failure
      else
        toks <- issue_tokens g now (teacher_id teacher) ;;
        Return {| status := 200;
                  body := public_fields teacher "Login successful";
                  cookies := AuthUtils.set_auth_cookies g ∅ toks.1 toks.2 |}
  end.





End WithPlatform.
End Endpoints.

(** ** A platform to run the definitions on

    Small stand-ins for the library operations, so that the definitions
    evaluate on examples: an empty environment, a keyed tag over the claim
    names in place of the MAC, decimal literals for [int], and identifiers
    written as decimal numbers. *)

Module Demo.

Fixpoint digits_value (acc : Z) (s : string) : option Z :=
  match s with
  | EmptyString => Some acc
  | String c rest =>
      if Password.is_digit c
      then digits_value (10 * acc + (Z.of_N (Ascii.N_of_ascii c) - 48)) rest
      else None
  end.

Definition parse_decimal (s : string) : option Z :=
  match s with
  | EmptyString => None
  | _ => digits_value 0 s
  end.

Definition tag (key : string) (input : signing_input) : string :=
  match input.2 with
  | PObject claims => key +:+ ":" +:+ String.concat "," (map_to_list claims).*1
  | PInvalid raw => key +:+ ":" +:+ raw
  end.

Definition platform : Platform := {|
  getenv := fun _ => None;
  hmac_sha256 := tag;
  int_of_str := parse_decimal;
  bcrypt_digest := fun setting password => "#" +:+ password;
  uuid_of_str := parse_decimal;
  str_of_uuid := fun u => pretty u
|}.

End Demo.

(** ** The vocabulary of the properties *)

Module Props.
Section WithPlatform.
Context `{Platform}.


(** A string of decimal digits. *)
Definition all_digits (s : string) : Prop :=
  Forall (fun c => Password.is_digit c = true) (Password.chars s).

(** The claims a token carries, when it is a compact token whose payload
    is a JSON object. *)
Definition token_claims (t : token) : option (gmap string json) :=
  match t with
  | Compact j =>
      match jws_payload j with
      | PObject claims => Some claims
      | PInvalid _ => None
      end
  | Malformed _ => None
  end.

(** A token is malformed: no compact serialisation, or one whose payload
    is not a JSON object. *)
Definition malformed (t : token) : Prop := token_claims t = None.

(** The signature of a compact token is valid under the module's key and
    algorithm. *)
Definition signature_valid (g : AuthUtils.globals) (t : token) : Prop :=
  ∃ j, t = Compact j
       ∧ AuthUtils.ALGORITHM g = "HS256"
       ∧ jws_header j !! "alg" = Some (JStr "HS256")
       ∧ jws_signature j
         = hmac_sha256 (AuthUtils.SECRET_KEY g) (jws_header j, jws_payload j).

Definition signature_invalid (g : AuthUtils.globals) (t : token) : Prop :=
  (∃ j, t = Compact j) ∧ ¬ signature_valid g t.

(** The expiry of a token is in the past when the clock reads [now]. *)
Definition claims_expired (now : Z) (claims : gmap string json) : Prop :=
  ∃ v e, claims !! "exp" = Some v
         ∧ Jose.claim_int v = Return e
         ∧ e < Jose.timegm now.
Definition expired (now : Z) (t : token) : Prop :=
  ∃ claims, token_claims t = Some claims ∧ claims_expired now claims.

(** python-jose's other grounds for rejecting the claims of a token. *)
Definition time_claim_not_integer (claims : gmap string json) : Prop :=
  ∃ k v, k ∈ ["iat"; "nbf"; "exp"] ∧ claims !! k = Some v
         ∧ Jose.claim_int v = Raise JWTClaimsError.
Definition not_yet_valid (now : Z) (claims : gmap string json) : Prop :=
  ∃ v n, claims !! "nbf" = Some v ∧ Jose.claim_int v = Return n
         ∧ Jose.timegm now < n.
Definition has_audience (claims : gmap string json) : Prop :=
  is_Some (claims !! "aud").
Definition subject_not_str (claims : gmap string json) : Prop :=
  ∃ v, claims !! "sub" = Some v ∧ is_str v = false.
Definition jti_not_str (claims : gmap string json) : Prop :=
  ∃ v, claims !! "jti" = Some v ∧ is_str v = false.
Definition has_at_hash (claims : gmap string json) : Prop :=
  is_Some (claims !! "at_hash").

Definition claim_rejected (now : Z) (claims : gmap string json) : Prop :=
  time_claim_not_integer claims ∨ not_yet_valid now claims
  ∨ has_audience claims ∨ subject_not_str claims ∨ jti_not_str claims
  ∨ has_at_hash claims.

(** A time claim that [int] does not accept at all: [null], an array or an
    object. *)
Definition time_claim_untyped (claims : gmap string json) : Prop :=
  ∃ k v, k ∈ ["iat"; "nbf"; "exp"] ∧ claims !! k = Some v
         ∧ Jose.claim_int v = Raise TypeError.

(** An outcome of validation when the clock reads [now]: acceptance, a
    rejection that [decode_token] turns into 401, with its ground, or the
    [TypeError] of a time claim [int] refuses. *)
Definition acceptable (now : Z) (c : gmap string json) (r : result unit) : Prop :=
  r = Return tt
  ∨ (∃ e, r = Raise e ∧ AuthUtils.is_JWTError e = true
          ∧ (claims_expired now c ∨ claim_rejected now c))
  ∨ (r = Raise TypeError ∧ time_claim_untyped c).

(** A dictionary holds JSON values only. *)
Definition json_only (d : gmap string pyval) : Prop :=
  map_Forall (fun _ v => is_Some (as_json v)) d.

(** The token python-jose signs for a JSON object of claims. *)
Definition signed (g : AuthUtils.globals) (claims : gmap string json) : token :=
  Compact {| jws_header := Jose.jose_header "HS256";
             jws_payload := PObject claims;
             jws_signature :=
               hmac_sha256 (AuthUtils.SECRET_KEY g)
                 (Jose.jose_header "HS256", PObject claims) |}.

(** The dictionary an issuing function hands to [jwt.encode], as the call
    leaves it: the caller's entries, then [exp] and [type], the time
    claims converted. *)
Definition issued_dict (d : gmap string pyval) (kind : string) (expire : Z)
    : gmap string pyval :=
  Jose.convert_time_claims
    (<["type" := Json (JStr kind)]> (<["exp" := Datetime expire]> d)).

(** The claims python-jose validates by default. *)
Definition registered : list string :=
  ["iat"; "nbf"; "exp"; "aud"; "sub"; "jti"; "at_hash"].

(** What an issuing function of kind [kind] and expiry [expire] owes the
    caller whose dictionary is [d], in its outcome [r]: an issued token
    carries the kind and the expiry of the function, and decodes to the
    claims it carries or not at all; for a dictionary of JSON values whose
    own claims python-jose accepts, a token is issued and decodes up to
    its expiry. *)
Definition issued_as (g : AuthUtils.globals) (kind : string) (expire : Z)
    (d : gmap string pyval) (r : result token) : Prop :=
  (∀ tok, r = Return tok →
     ∃ c, token_claims tok = Some c
          ∧ c !! "type" = Some (JStr kind)
          ∧ c !! "exp" = Some (JInt (Jose.timegm expire))
          ∧ ∀ now' c', AuthUtils.decode_token g now' tok = Return c' → c' = c)
  ∧ (json_only d →
     ∀ now',
       Jose.validate_claims (Jose.timegm now') (delete "exp" (omap as_json d))
       = Return tt →
       Jose.timegm now' ≤ Jose.timegm expire →
       ∃ tok c, r = Return tok
                ∧ AuthUtils.decode_token g now' tok = Return c
                ∧ c !! "type" = Some (JStr kind)).

(** The failure of [decode_token]. *)
Definition rejected : result (gmap string json) :=
  Raise (AuthUtils.unauthorized "Could not validate credentials").

End WithPlatform.
End Props.

(** ** Clearing the cookies: [clear_auth_cookies] *)

Module Cookies.

(** The cookies a client holds, by name.  [set_auth_cookies] stores into
    this map. *)
Abbreviation jar := (gmap string AuthUtils.cookie) (only parsing).

(** [response.delete_cookie(key, domain=domain, path=path)], as the client
    that holds the cookies sees it: the cookie of that name is dropped
    when it was set for this domain and path, and stays otherwise. *)
Definition delete_cookie (key : string) (domain : option string)
    (path : string) (cookies : jar) : jar :=
  match cookies !! key with
  | Some c =>
      if bool_decide (AuthUtils.domain c = domain)
         && String.eqb (AuthUtils.path c) path
      then delete key cookies
      else cookies
  | None => cookies
  end.

Definition clear_auth_cookies (g : AuthUtils.globals) (response : jar) : jar :=
  let response :=
    delete_cookie "access_token" (AuthUtils.COOKIE_DOMAIN g) "/" response in
  delete_cookie "refresh_token" (AuthUtils.COOKIE_DOMAIN g) "/" response.

(** The cookie parameter of [get_current_teacher] for a client that holds
    these cookies: [Cookie(None)]. *)
Definition access_token_cookie (cookies : jar) : option token :=
  AuthUtils.value <$> cookies !! "access_token".

End Cookies.

(** ** Sending mail: [send_email] *)

Module Mail.

(** The email settings among the module's globals. *)
Record smtp_globals : Type := {
  SMTP_HOST : string;
  SMTP_PORT : Z;
  SMTP_USER : string;
  SMTP_PASSWORD : string;
  SMTP_FROM_EMAIL : string;
  SMTP_FROM_NAME : string
}.

(** The values the import gives them; [int(os.getenv("SMTP_PORT", "587"))]
    raises [ValueError] for a port that is no integer literal. *)
Definition initial_smtp_globals `{Platform} : result smtp_globals :=
  match int_of_str (default "587" (getenv "SMTP_PORT")) with
  | None => Raise ValueError
  | Some port =>
      let user := default "" (getenv "SMTP_USER") in
      Return {| SMTP_HOST := default "smtp.gmail.com" (getenv "SMTP_HOST");
                SMTP_PORT := port;
                SMTP_USER := user;
                SMTP_PASSWORD := default "" (getenv "SMTP_PASSWORD");
                SMTP_FROM_EMAIL := default user (getenv "SMTP_FROM_EMAIL");
                SMTP_FROM_NAME := default "Sudar AI" (getenv "SMTP_FROM_NAME") |}
  end.

(** The [MIMEMultipart("alternative")] message with its one part. *)
Record message : Type := {
  msg_subject : string;
  msg_from : string;
  msg_to : string;
  msg_subtype : string;
  msg_body : string
}.

(** What the block [with smtplib.SMTP(host, port) as server: starttls;
    login; send_message] can raise, by the [except] clause that is first
    to catch it. *)
Inductive smtp_failure : Type :=
| SMTPAuthenticationError
| SMTPException
| OtherException.

(** The mail server: what a delivery attempt with these credentials ends
    in, [None] for a message the server took. *)
Definition smtp_server : Type :=
  string -> Z -> string -> string -> message -> option smtp_failure.

(** What a call does besides returning: the attempt at the server, and
    which of its messages it prints (their text holds characters above
    code point 255 and is left out). *)
Inductive event : Type :=
| Printed_not_configured (to_email subject body : string)
| Attempt (host : string) (port : Z) (user password : string) (m : message)
| Printed_sent (to_email : string)
| Printed_auth_failed
| Printed_smtp_error
| Printed_unexpected.

Definition HTTP_500_INTERNAL_SERVER_ERROR : Z := 500.

Definition internal_error (detail : string) : exn :=
  HTTPException HTTP_500_INTERNAL_SERVER_ERROR detail None.

(** [not s] for a [str]. *)
Definition str_empty (s : string) : bool := String.eqb s "".

Definition send_email (g : smtp_globals) (server : smtp_server)
    (to_email subject body : string) (html : bool)
    : result unit * list event :=
  if str_empty (SMTP_USER g) || str_empty (SMTP_PASSWORD g) then
    (Return tt, [Printed_not_configured to_email subject body])
  else
    let m := {| msg_subject := subject;
                msg_from := SMTP_FROM_NAME g +:+ " <" +:+ SMTP_FROM_EMAIL g +:+ ">";
                msg_to := to_email;
                msg_subtype := if html then "html" else "plain";
                msg_body := body |} in
    let attempt := Attempt (SMTP_HOST g) (SMTP_PORT g) (SMTP_USER g)
                     (SMTP_PASSWORD g) m in
    match server (SMTP_HOST g) (SMTP_PORT g) (SMTP_USER g) (SMTP_PASSWORD g) m with
    | None => (Return tt, [attempt; Printed_sent to_email])
    | Some SMTPAuthenticationError =>
        (Raise (internal_error "Email service authentication failed"),
         [attempt; Printed_auth_failed])
    | Some SMTPException =>
        (Raise (internal_error "Failed to send email"),
         [attempt; Printed_smtp_error])
    | Some OtherException =>
        (Raise (internal_error "An unexpected error occurred while sending email"),
         [attempt; Printed_unexpected])
    end.

(** The event is an attempt at the server. *)
Definition is_attempt (e : event) : bool :=
  match e with
  | Attempt _ _ _ _ _ => true
  | _ => false
  end.

End Mail.

(** ** More vocabulary *)

Module Props2.

(** Every [datetime] of the dictionary sits where [jwt.encode] converts it
    (a time claim) or the issuing function overwrites it ([exp], [type]). *)
Definition issuable (d : gmap string pyval) : Prop :=
  ∀ k us, d !! k = Some (Datetime us) → k ∈ ["exp"; "iat"; "nbf"; "type"].

(** The settings are complete: a user and a password are configured. *)
Definition configured (g : Mail.smtp_globals) : Prop :=
  Mail.SMTP_USER g ≠ "" ∧ Mail.SMTP_PASSWORD g ≠ "".

End Props2.

(** * Properties *)

(** ** Password policy *)

Section PasswordPolicy.
Import Password Props.

Lemma re_search_None (cls : ascii -> bool) (s : string) :
  re_search cls s = None ↔ ∀ c, c ∈ chars s → cls c = false.
Proof.
  induction s as [|a s IH]; simpl.
  - split; [intros _ c Hc; inversion Hc | done].
  - destruct (cls a) eqn:Ha.
    + split; [done | intros Hall].
      specialize (Hall a (list_elem_of_here _ _)). congruence.
    + rewrite IH. split.
      * intros Hall c Hc. inversion Hc; subst; auto.
      * intros Hall c Hc. apply Hall. by constructor.
Qed.

Lemma re_search_Some (cls : ascii -> bool) (s : string) (a : ascii) :
  re_search cls s = Some a → a ∈ chars s ∧ cls a = true.
Proof.
  induction s as [|b s IH]; simpl; [done|].
  destruct (cls b) eqn:Hb.
  - intros [= ->]. split; [by constructor | done].
  - intros Hs. destruct (IH Hs). split; [by constructor | done].
Qed.

Lemma re_search_found (cls : ascii -> bool) (s : string) :
  is_none (re_search cls s) = false ↔ ∃ c, c ∈ chars s ∧ cls c = true.
Proof.
  destruct (re_search cls s) eqn:E; simpl.
  - split; [intros _ | done]. apply re_search_Some in E. eauto.
  - split; [done|]. intros (c & Hc & Hl).
    rewrite re_search_None in E. rewrite (E c Hc) in Hl. done.
Qed.

Lemma re_search_missing (cls : ascii -> bool) (s : string) :
  is_none (re_search cls s) = true ↔ ¬ ∃ c, c ∈ chars s ∧ cls c = true.
Proof.
  rewrite <- re_search_found. destruct (is_none _); split; congruence.
Qed.


End PasswordPolicy.

(** The letters of the policy are the ASCII ones: a password whose only
    letters lie outside [[A-Za-z]] is reported as having none. *)
Example validate_password_accented :
  Password.validate_password
    (String (Ascii.ascii_of_nat 233) (String (Ascii.ascii_of_nat 233) "1234567"))
  = Raise (HTTPException 400 Password.no_letter_detail None).
Proof. reflexivity. Qed.

(** ** Password hashing *)

Section PasswordHashing.
Context `{Platform}.
Import Bcrypt.

Lemma substring_app_exact (s t : string) :
  substring 0 (String.length s) (s +:+ t) = s.
Proof.
  induction s as [|a s IH]; simpl.
  - by destruct t.
  - by rewrite IH.
Qed.

Lemma gensalt_length (raw : string) :
  String.length (gensalt raw) = (7 + String.length raw)%nat.
Proof. reflexivity. Qed.

Lemma setting_of_gensalt (raw : string) :
  String.length raw = 22%nat → setting_of (gensalt raw) = gensalt raw.
Proof.
  intros Hlen. unfold setting_of.
  replace 29%nat with (String.length (gensalt raw))
    by (rewrite gensalt_length; lia).
  rewrite <- (substring_app_exact (gensalt raw) "") at 2.
  f_equal. induction (gensalt raw) as [|a s IH]; simpl; [done | by rewrite IH].
Qed.

Lemma setting_of_hash_password (raw password : string) :
  String.length raw = 22%nat →
  setting_of (hash_password raw password) = gensalt raw.
Proof.
  intros Hlen. unfold hash_password, hashpw.
  rewrite (setting_of_gensalt raw Hlen). unfold setting_of.
  replace 29%nat with (String.length (gensalt raw))
    by (rewrite gensalt_length; lia).
  apply substring_app_exact.
Qed.

Lemma gensalt_inj (raw1 raw2 : string) :
  gensalt raw1 = gensalt raw2 → raw1 = raw2.
Proof. unfold gensalt. cbn. intros Heq. by simplify_eq. Qed.

(** C5. A hash made by [hash_password] verifies against its password, and
    two calls, whose salts are two different draws of [bcrypt.gensalt()],
    yield two different strings that both verify. *)
Theorem hash_password_salted_round_trip (p raw1 raw2 : string) :
  String.length raw1 = 22%nat →
  String.length raw2 = 22%nat →
  raw1 ≠ raw2 →
  check_user_password p (hash_password raw1 p) = true
  ∧ check_user_password p (hash_password raw2 p) = true
  ∧ hash_password raw1 p ≠ hash_password raw2 p.
Proof.
  intros H1 H2 Hne.
  assert (Hcheck : ∀ raw, String.length raw = 22%nat →
            check_user_password p (hash_password raw p) = true).
  { intros raw Hraw. unfold check_user_password, checkpw.
    apply String.eqb_eq. unfold hashpw at 1.
    rewrite (setting_of_hash_password raw p Hraw).
    unfold hash_password, hashpw. by rewrite (setting_of_gensalt raw Hraw). }
  repeat split; auto.
  intros Heq. apply Hne, gensalt_inj.
  pose proof (setting_of_hash_password raw1 p H1) as E1.
  pose proof (setting_of_hash_password raw2 p H2) as E2.
  rewrite Heq in E1. congruence.
Qed.

End PasswordHashing.

(** The test [test_same_password_produces_different_hashes], with two
    draws of the salt. *)
Lemma hash_password_same_password_twice :
  Bcrypt.check_user_password (H:=Demo.platform) "SamePass123"
    (Bcrypt.hash_password (H:=Demo.platform) "abcdefghijklmnopqrstuv" "SamePass123") = true
  ∧ Bcrypt.check_user_password (H:=Demo.platform) "SamePass123"
      (Bcrypt.hash_password (H:=Demo.platform) "ABCDEFGHIJKLMNOPQRSTUV" "SamePass123") = true
  ∧ Bcrypt.hash_password (H:=Demo.platform) "abcdefghijklmnopqrstuv" "SamePass123"
    ≠ Bcrypt.hash_password (H:=Demo.platform) "ABCDEFGHIJKLMNOPQRSTUV" "SamePass123".
Proof.
  apply (hash_password_salted_round_trip (H:=Demo.platform));
    [reflexivity | reflexivity | discriminate].
Defined.

(** ** python-jose: encoding, verification, validation *)

Section JoseFacts.
Context `{Platform}.
Import Jose Props.

Lemma bind_Return_unit (m k : result unit) :
  (m ;;; k) = Return tt ↔ m = Return tt ∧ k = Return tt.
Proof.
  destruct m as [[]|e]; simpl; [|split; [done | by intros [? ?]]].
  split; [done | by intros [_ ?]].
Qed.

Lemma convert_time_claims_lookup (m : gmap string pyval) (k : string) :
  convert_time_claims m !! k
  = if bool_decide (k ∈ ["exp"; "iat"; "nbf"])
    then convert_time_claim <$> m !! k
    else m !! k.
Proof.
  unfold convert_time_claims. simpl.
  case_bool_decide as Hk.
  - rewrite !lookup_alter.
    repeat case_decide; subst; try done.
    exfalso. rewrite !elem_of_cons, elem_of_nil in Hk. naive_solver.
  - rewrite !elem_of_cons, elem_of_nil in Hk.
    rewrite !lookup_alter_ne; [done|..]; naive_solver.
Qed.

Lemma issued_dict_type d kind e :
  issued_dict d kind e !! "type" = Some (Json (JStr kind)).
Proof.
  unfold issued_dict. rewrite convert_time_claims_lookup.
  rewrite bool_decide_eq_false_2
    by (rewrite !elem_of_cons, elem_of_nil; naive_solver).
  by rewrite lookup_insert_eq.
Qed.

Lemma issued_dict_exp d kind e :
  issued_dict d kind e !! "exp" = Some (Json (JInt (timegm e))).
Proof.
  unfold issued_dict. rewrite convert_time_claims_lookup.
  rewrite bool_decide_eq_true_2 by apply list_elem_of_here.
  rewrite lookup_insert_ne by done. by rewrite lookup_insert_eq.
Qed.

Lemma issued_dict_other d kind e k :
  k ≠ "type" → k ≠ "exp" →
  issued_dict d kind e !! k = convert_time_claims d !! k.
Proof.
  intros Ht He. unfold issued_dict. rewrite !convert_time_claims_lookup.
  by rewrite !lookup_insert_ne.
Qed.

Lemma dumps_Return (m : gmap string pyval) (c : gmap string json) :
  dumps m = Return c → ∀ k, c !! k = m !! k ≫= as_json.
Proof.
  unfold dumps. case_bool_decide; [|done].
  intros [= <-] k. by rewrite lookup_omap.
Qed.

Lemma dumps_json_only (m : gmap string pyval) :
  json_only m → dumps m = Return (omap as_json m).
Proof. intros Hm. unfold dumps. by rewrite bool_decide_eq_true_2. Qed.

Lemma dumps_raises (m : gmap string pyval) (e : exn) :
  dumps m = Raise e → e = TypeError.
Proof. unfold dumps. case_bool_decide; congruence. Qed.

Lemma issued_dict_json_only d kind e :
  json_only d → json_only (issued_dict d kind e).
Proof.
  intros Hd k v Hk. destruct (decide (k = "type")) as [->|Ht].
  { rewrite issued_dict_type in Hk. by simplify_eq. }
  destruct (decide (k = "exp")) as [->|He].
  { rewrite issued_dict_exp in Hk. by simplify_eq. }
  rewrite issued_dict_other, convert_time_claims_lookup in Hk by done.
  case_bool_decide.
  - destruct (d !! k) as [[j|us]|] eqn:E; simplify_eq/=; done.
  - by apply (Hd k).
Qed.

Lemma jws_sign_HS256 (g : AuthUtils.globals) (c : gmap string json) :
  AuthUtils.ALGORITHM g = "HS256" →
  jws_sign c (AuthUtils.SECRET_KEY g) (AuthUtils.ALGORITHM g) = Return (signed g c).
Proof. intros ->. reflexivity. Qed.

Lemma jose_header_alg : jose_header "HS256" !! "alg" = Some (JStr "HS256").
Proof. unfold jose_header. rewrite lookup_insert_ne by done. apply lookup_insert_eq. Qed.

Lemma jws_verify_signed (g : AuthUtils.globals) (c : gmap string json) :
  AuthUtils.ALGORITHM g = "HS256" →
  jws_verify (signed g c) (AuthUtils.SECRET_KEY g) [AuthUtils.ALGORITHM g]
  = Return (PObject c).
Proof.
  intros ->. unfold jws_verify, signed. cbn [jws_header jws_payload jws_signature].
  rewrite jose_header_alg.
  rewrite bool_decide_eq_true_2 by apply list_elem_of_here.
  cbn [andb]. rewrite !String.eqb_refl. done.
Qed.

Lemma decode_signed (g : AuthUtils.globals) (now : Z) (c : gmap string json) :
  AuthUtils.ALGORITHM g = "HS256" →
  decode now (signed g c) (AuthUtils.SECRET_KEY g) [AuthUtils.ALGORITHM g]
  = (validate_claims (timegm now) c ;;; Return c).
Proof. intros Hg. unfold decode. by rewrite (jws_verify_signed g c Hg). Qed.

End JoseFacts.

(** ** Issuing tokens *)

Section Issuing.
Context `{Platform}.
Import Jose AuthUtils Props.

(** Both issuing functions, run on a heap: the new dictionary takes a
    fresh location, and the outcome is the one of signing it. *)
Lemma create_access_token_run g now data delta h :
  create_access_token g now data delta h
  = let d' := issued_dict (default ∅ (h !! data)) "access"
                (expiry now delta (timedelta_minutes (ACCESS_TOKEN_EXPIRE_MINUTES g))) in
    ((payload <- dumps d' ;; jws_sign payload (SECRET_KEY g) (ALGORITHM g)),
     <[fresh (dom h) := d']> h).
Proof.
  unfold create_access_token, dict_copy, dict_update, jwt_encode, encode.
  cbn [fst snd foldl]. rewrite alter_insert_eq, lookup_insert_eq.
  cbn [default]. by rewrite insert_insert_eq.
Qed.

Lemma create_refresh_token_run g now data delta h :
  create_refresh_token g now data delta h
  = let d' := issued_dict (default ∅ (h !! data)) "refresh"
                (expiry now delta (timedelta_days (REFRESH_TOKEN_EXPIRE_DAYS g))) in
    ((payload <- dumps d' ;; jws_sign payload (SECRET_KEY g) (ALGORITHM g)),
     <[fresh (dom h) := d']> h).
Proof.
  unfold create_refresh_token, dict_copy, dict_update, jwt_encode, encode.
  cbn [fst snd foldl]. rewrite alter_insert_eq, lookup_insert_eq.
  cbn [default]. by rewrite insert_insert_eq.
Qed.

(** A dictionary that is already on the heap is not the fresh one. *)
Lemma fresh_loc_frame (h : heap) (d' : gmap string pyval) (l : loc) :
  is_Some (h !! l) → <[fresh (dom h) := d']> h !! l = h !! l.
Proof.
  intros Hl. apply lookup_insert_ne. intros <-.
  apply elem_of_dom in Hl. by apply is_fresh in Hl.
Qed.

(** What signing an issued dictionary yields: a token exactly when the
    dictionary serialises, and then the signed claims. *)
Lemma sign_issued g d kind e (r : result token) :
  ALGORITHM g = "HS256" →
  r = (payload <- dumps (issued_dict d kind e) ;;
       jws_sign payload (SECRET_KEY g) (ALGORITHM g)) →
  (∀ tok, r = Return tok →
     ∃ c, tok = signed g c
          ∧ c !! "type" = Some (JStr kind)
          ∧ c !! "exp" = Some (JInt (timegm e))
          ∧ ∀ k, k ≠ "type" → k ≠ "exp" →
                 c !! k = convert_time_claims d !! k ≫= as_json)
  ∧ (∀ x, r = Raise x → x = TypeError ∧ ¬ json_only d)
  ∧ (json_only d → ∃ tok, r = Return tok).
Proof.
  intros Hg ->. destruct (dumps (issued_dict d kind e)) as [c|x] eqn:E; cbn [bind].
  - rewrite (jws_sign_HS256 g c Hg). split; [|split]; [|done|eauto].
    intros tok [= <-]. exists c. split; [done|].
    pose proof (dumps_Return _ _ E) as Hc. split; [|split].
    + by rewrite Hc, issued_dict_type.
    + by rewrite Hc, issued_dict_exp.
    + intros k Ht He. by rewrite Hc, issued_dict_other.
  - assert (¬ json_only d) as Hd.
    { intros Hd.
      rewrite (dumps_json_only _ (issued_dict_json_only d kind e Hd)) in E. done. }
    split; [done|split]; [|done].
    intros x' [= <-]. split; [|done]. by apply dumps_raises in E.
Qed.

(** The default lifetimes, in whole seconds. *)
Lemma timegm_add_minutes now m :
  timegm (now + timedelta_minutes m) = timegm now + m * 60.
Proof.
  unfold timegm, timedelta_minutes.
  replace (now + m * 60 * 1000000) with (now + (m * 60) * 1000000) by lia.
  by rewrite Z.div_add.
Qed.

Lemma timegm_add_days now d :
  timegm (now + timedelta_days d) = timegm now + d * 24 * 60 * 60.
Proof.
  unfold timegm, timedelta_days.
  replace (now + d * 24 * 60 * 60 * 1000000)
    with (now + (d * 24 * 60 * 60) * 1000000) by lia.
  by rewrite Z.div_add.
Qed.

End Issuing.

(** ** Claim validation *)

Section Validation.
Context `{Platform}.
Import Jose Props.

(** The validators read the registered claims only. *)
Lemma validate_claims_ext (n : Z) (c1 c2 : gmap string json) :
  (∀ k, k ∈ registered → c1 !! k = c2 !! k) →
  validate_claims n c1 = validate_claims n c2.
Proof.
  intros Hk. unfold validate_claims, validate_iat, validate_nbf, validate_exp,
    validate_aud, validate_iss, validate_sub, validate_jti, validate_at_hash.
  rewrite !Hk; [done|..]; unfold registered;
    rewrite !elem_of_cons; tauto.
Qed.

Lemma claim_int_cases (v : json) :
  (∃ n, claim_int v = Return n)
  ∨ claim_int v = Raise JWTClaimsError
  ∨ claim_int v = Raise TypeError.
Proof.
  destruct v as [|b|n|s| |]; simpl; eauto.
  destruct (int_of_str s); eauto.
Qed.

Lemma acceptable_bind now c (m k : result unit) :
  acceptable now c m → acceptable now c k → acceptable now c (m ;;; k).
Proof.
  intros [->|[(e & -> & He)|[-> Hc]]] Hk; simpl; [done|..].
  - right; left; eauto.
  - right; right; eauto.
Qed.

Lemma time_claim_acceptable now c k v (f : Z → result unit) :
  k ∈ ["iat"; "nbf"; "exp"] → c !! k = Some v →
  (∀ n, claim_int v = Return n → acceptable now c (f n)) →
  acceptable now c (n <- claim_int v ;; f n).
Proof.
  intros Hk Hv Hf.
  destruct (claim_int_cases v) as [[n E]|[E|E]]; rewrite E; simpl.
  - by apply Hf.
  - right; left. exists JWTClaimsError. do 2 (split; [done|]).
    right; left. exists k, v. eauto.
  - right; right. split; [done|]. exists k, v. eauto.
Qed.

Lemma validate_aud_present c v :
  c !! "aud" = Some v → validate_aud None c = Raise JWTClaimsError.
Proof.
  intros E. unfold validate_aud. rewrite E.
  destruct v; try done; by destruct (existsb _ _).
Qed.

Lemma validate_claims_acceptable (now : Z) (c : gmap string json) :
  acceptable now c (validate_claims (timegm now) c).
Proof.
  unfold validate_claims. repeat apply acceptable_bind.
  - unfold validate_iat. destruct (c !! "iat") as [v|] eqn:E; [|by left].
    apply (time_claim_acceptable now c "iat" v (fun _ => Return tt));
      [rewrite !elem_of_cons; tauto | done | by left].
  - unfold validate_nbf. destruct (c !! "nbf") as [v|] eqn:E; [|by left].
    apply (time_claim_acceptable now c "nbf" v
             (fun nbf => if timegm now + 0 <? nbf
                         then Raise JWTClaimsError else Return tt));
      [rewrite !elem_of_cons; tauto | done |].
    intros m Hm. destruct (Z.ltb_spec (timegm now + 0) m); [|by left].
    right; left. exists JWTClaimsError. do 2 (split; [done|]).
    right; right; left. exists v, m. repeat split; [done..|lia].
  - unfold validate_exp. destruct (c !! "exp") as [v|] eqn:E; [|by left].
    apply (time_claim_acceptable now c "exp" v
             (fun exp => if exp <? timegm now - 0
                         then Raise ExpiredSignatureError else Return tt));
      [rewrite !elem_of_cons; tauto | done |].
    intros m Hm. destruct (Z.ltb_spec m (timegm now - 0)); [|by left].
    right; left. exists ExpiredSignatureError. do 2 (split; [done|]).
    left. exists v, m. repeat split; [done..|lia].
  - destruct (c !! "aud") as [v|] eqn:E.
    + rewrite (validate_aud_present c v E). right; left.
      exists JWTClaimsError. do 2 (split; [done|]).
      right; right; right; left. by exists v.
    + unfold validate_aud. rewrite E. by left.
  - by left.
  - unfold validate_sub. destruct (c !! "sub") as [v|] eqn:E; [|by left].
    destruct (is_str v) eqn:Hs; simpl; [by left|].
    right; left. exists JWTClaimsError. do 2 (split; [done|]).
    do 4 right. left. by exists v.
  - unfold validate_jti. destruct (c !! "jti") as [v|] eqn:E; [|by left].
    destruct (is_str v) eqn:Hs; simpl; [by left|].
    right; left. exists JWTClaimsError. do 2 (split; [done|]).
    do 5 right. left. by exists v.
  - unfold validate_at_hash. destruct (c !! "at_hash") as [v|] eqn:E; [|by left].
    right; left. exists JWTClaimsError. do 2 (split; [done|]).
    do 6 right. by exists v.
Qed.

(** Validation accepts only claims that are neither expired nor rejected,
    and whose time claims [int] accepts. *)
Lemma validate_claims_Return (now : Z) (c : gmap string json) :
  validate_claims (timegm now) c = Return tt →
  ¬ claims_expired now c ∧ ¬ claim_rejected now c ∧ ¬ time_claim_untyped c.
Proof.
  unfold validate_claims. rewrite !bind_Return_unit.
  intros (Hiat & Hnbf & Hexp & Haud & _ & Hsub & Hjti & Hat).
  assert (Htime : ∀ k v x, k ∈ ["iat"; "nbf"; "exp"] → c !! k = Some v →
                           claim_int v = Raise x → False).
  { intros k v x Hk Hv Hint. rewrite !elem_of_cons, elem_of_nil in Hk.
    destruct Hk as [->|[->|[->|[]]]].
    - unfold validate_iat in Hiat. rewrite Hv, Hint in Hiat. done.
    - unfold validate_nbf in Hnbf. rewrite Hv, Hint in Hnbf. done.
    - unfold validate_exp in Hexp. rewrite Hv, Hint in Hexp. done. }
  split; [|split].
  - intros (v & e & Hv & He & Hlt). unfold validate_exp in Hexp.
    rewrite Hv, He in Hexp. simpl in Hexp.
    destruct (Z.ltb_spec e (timegm now - 0)); [done | lia].
  - intros [(k & v & Hk & Hv & Hint)|[(v & n & Hv & Hint & Hlt)
           |[[v Hv]|[(v & Hv & Hs)|[(v & Hv & Hs)|[v Hv]]]]]].
    + eauto.
    + unfold validate_nbf in Hnbf. rewrite Hv, Hint in Hnbf. simpl in Hnbf.
      destruct (Z.ltb_spec (timegm now + 0) n); [done | lia].
    + by rewrite (validate_aud_present c v Hv) in Haud.
    + unfold validate_sub in Hsub. rewrite Hv, Hs in Hsub. done.
    + unfold validate_jti in Hjti. rewrite Hv, Hs in Hjti. done.
    + unfold validate_at_hash in Hat. by rewrite Hv in Hat.
  - intros (k & v & Hk & Hv & Hint). eauto.
Qed.

Lemma validate_claims_rejects (now : Z) (c : gmap string json) :
  ¬ time_claim_untyped c →
  claims_expired now c ∨ claim_rejected now c →
  ∃ e, validate_claims (timegm now) c = Raise e ∧ AuthUtils.is_JWTError e = true.
Proof.
  intros Hty Hbad.
  destruct (validate_claims_acceptable now c) as [E|[(e & E & He & _)|[_ E]]];
    [|by eauto|done].
  apply validate_claims_Return in E. tauto.
Qed.

Lemma validate_claims_accepts (now : Z) (c : gmap string json) :
  ¬ time_claim_untyped c → ¬ claims_expired now c → ¬ claim_rejected now c →
  validate_claims (timegm now) c = Return tt.
Proof.
  intros Hty Hexp Hrej.
  assert (Hint : ∀ k v, k ∈ ["iat"; "nbf"; "exp"] → c !! k = Some v →
                        ∃ n, claim_int v = Return n).
  { intros k v Hk Hv. destruct (claim_int_cases v) as [?|[E|E]]; [done|..].
    - destruct Hrej. left. exists k, v. eauto.
    - destruct Hty. exists k, v. eauto. }
  unfold validate_claims. rewrite !bind_Return_unit. repeat split.
  - unfold validate_iat. destruct (c !! "iat") as [v|] eqn:E; [|done].
    destruct (Hint "iat" v) as [n ->]; [rewrite !elem_of_cons; tauto|done|done].
  - unfold validate_nbf. destruct (c !! "nbf") as [v|] eqn:E; [|done].
    destruct (Hint "nbf" v) as [n Hn]; [rewrite !elem_of_cons; tauto|done|].
    rewrite Hn. simpl. destruct (Z.ltb_spec (timegm now + 0) n); [|done].
    destruct Hrej. right; left. exists v, n. repeat split; [done..|lia].
  - unfold validate_exp. destruct (c !! "exp") as [v|] eqn:E; [|done].
    destruct (Hint "exp" v) as [n Hn]; [rewrite !elem_of_cons; tauto|done|].
    rewrite Hn. simpl. destruct (Z.ltb_spec n (timegm now - 0)); [|done].
    destruct Hexp. exists v, n. repeat split; [done..|lia].
  - unfold validate_aud. destruct (c !! "aud") as [v|] eqn:E; [|done].
    destruct Hrej. right; right; left. by exists v.
  - unfold validate_sub. destruct (c !! "sub") as [v|] eqn:E; [|done].
    destruct (is_str v) eqn:Hs; [done|].
    destruct Hrej. right; right; right; left. by exists v.
  - unfold validate_jti. destruct (c !! "jti") as [v|] eqn:E; [|done].
    destruct (is_str v) eqn:Hs; [done|].
    destruct Hrej. do 4 right. left. by exists v.
  - unfold validate_at_hash. destruct (c !! "at_hash") as [v|] eqn:E; [|done].
    destruct Hrej. do 5 right. by exists v.
Qed.

End Validation.

(** ** Decoding tokens *)

Section Decoding.
Context `{Platform}.
Import Jose AuthUtils Props.

Lemma jws_verify_cases (g : globals) (t : token) :
  (∃ j, t = Compact j ∧ signature_valid g t
        ∧ jws_verify t (SECRET_KEY g) [ALGORITHM g] = Return (jws_payload j))
  ∨ (((∃ raw, t = Malformed raw) ∨ signature_invalid g t)
     ∧ jws_verify t (SECRET_KEY g) [ALGORITHM g] = Raise JWTError).
Proof.
  destruct t as [j|raw]; [|right; split; [left; eauto | done]].
  assert (Hinv : ¬ signature_valid g (Compact j) →
                 (∃ raw, Compact j = Malformed raw) ∨ signature_invalid g (Compact j)).
  { intros Hn. right. split; [eauto | done]. }
  unfold jws_verify.
  destruct (jws_header j !! "alg") as [[| | |alg| |]|] eqn:Halg;
    try (right; split; [apply Hinv; intros (j' & [= <-] & _ & ? & _); congruence | done]).
  case_bool_decide as Hin; cbn [andb];
    [|right; split; [apply Hinv|done]].
  - destruct (String.eqb_spec alg "HS256") as [->|Hne];
      [|right; split; [apply Hinv|done]].
    + apply list_elem_of_singleton in Hin.
      destruct (String.eqb_spec (jws_signature j)
                  (hmac_sha256 (SECRET_KEY g) (jws_header j, jws_payload j)))
        as [Hsig|Hsig].
      * left. exists j. split; [done|]. split; [|done]. exists j. eauto.
      * right. split; [apply Hinv|done].
        intros (j' & [= <-] & _ & _ & ?). done.
    + intros (j' & [= <-] & _ & ? & _). congruence.
  - intros (j' & [= <-] & Hg & ? & _). apply Hin.
    apply list_elem_of_singleton. congruence.
Qed.

(** A token that is malformed or badly signed is rejected. *)
Lemma decode_token_unverified (g : globals) (now : Z) (t : token) :
  malformed t ∨ signature_invalid g t → decode_token g now t = rejected.
Proof.
  intros Hbad. unfold decode_token, decode.
  destruct (jws_verify_cases g t) as [(j & -> & Hval & ->)|[_ ->]]; [|done].
  destruct Hbad as [Hm|[_ Hn]]; [|done].
  unfold malformed, token_claims in Hm. cbn [bind].
  by destruct (jws_payload j).
Qed.

(** A well-formed, well-signed token is judged by its claims. *)
Lemma decode_token_verified (g : globals) (now : Z) (t : token) c :
  token_claims t = Some c → signature_valid g t →
  decode_token g now t
  = try_except (validate_claims (timegm now) c ;;; Return c) is_JWTError rejected.
Proof.
  intros Hc Hval. unfold decode_token, decode.
  destruct (jws_verify_cases g t) as [(j & -> & _ & ->)|[[[raw ->]|[_ Hn]] _]];
    [|done..].
  unfold token_claims in Hc. cbn [bind].
  destruct (jws_payload j); by simplify_eq.
Qed.

Lemma token_classified (g : globals) (t : token) :
  malformed t ∨ signature_invalid g t
  ∨ ∃ c, token_claims t = Some c ∧ signature_valid g t.
Proof.
  destruct (token_claims t) as [c|] eqn:Hc; [|by left].
  destruct (jws_verify_cases g t) as [(j & -> & Hval & _)|[[[raw ->]|Hn] _]].
  - right; right. eauto.
  - done.
  - by right; left.
Qed.

(** C2, amended.  [decode_token] fails with 401 when the token is
    malformed, when its signature is invalid, and, for a well-formed and
    well-signed token, exactly when its expiry is in the past or
    python-jose rejects another registered claim (a time claim that is no
    integer literal, [nbf] in the future, an [aud] claim, a [sub] or [jti]
    that is not a string, an [at_hash] claim); otherwise it returns the
    decoded claims.  This holds when [int] accepts the time claims: for one
    that is [null], an array or an object the outcome is 401 or an
    uncaught [TypeError]. *)
Theorem decode_token_outcomes (now : Z) (t : token) :
  let g := initial_globals in
  (malformed t ∨ signature_invalid g t
   ∨ ∃ c, token_claims t = Some c ∧ signature_valid g t)
  ∧ (malformed t ∨ signature_invalid g t → decode_token g now t = rejected)
  ∧ (∀ c, token_claims t = Some c → signature_valid g t →
          ¬ time_claim_untyped c →
          (decode_token g now t = rejected
           ↔ expired now t ∨ claim_rejected now c)
          ∧ (decode_token g now t = Return c
             ↔ ¬ (expired now t ∨ claim_rejected now c)))
  ∧ (∀ c, token_claims t = Some c → signature_valid g t →
          time_claim_untyped c →
          decode_token g now t = rejected
          ∨ decode_token g now t = Raise TypeError).
Proof.
  intros g. split; [apply token_classified|].
  split; [apply decode_token_unverified|].
  assert (Hexp : ∀ c, token_claims t = Some c →
                      (expired now t ↔ claims_expired now c)).
  { intros c Hc. unfold expired. split; [|by eauto].
    intros (c' & Hc' & ?). congruence. }
  split.
  - intros c Hc Hval Hty. rewrite (decode_token_verified g now t c Hc Hval).
    rewrite (Hexp c Hc).
    destruct (validate_claims_acceptable now c) as [E|[(e & E & He & Hwhy)|[_ E]]];
      [| |done]; rewrite E; cbn [bind try_except].
    + apply validate_claims_Return in E as (? & ? & _). unfold rejected.
      split; split; [discriminate | tauto | tauto | done].
    + rewrite He. fold rejected. unfold rejected at 2.
      split; split; [tauto | done | discriminate | tauto].
  - intros c Hc Hval Hty. rewrite (decode_token_verified g now t c Hc Hval).
    destruct (validate_claims_acceptable now c) as [E|[(e & E & He & _)|[E _]]];
      rewrite E; cbn [bind try_except].
    + apply validate_claims_Return in E as (_ & _ & ?). done.
    + rewrite He. by left.
    + by right.
Qed.

End Decoding.

(** A correctly signed token that is neither malformed nor expired, and
    that [decode_token] still turns down: its [nbf] lies in the future. *)
Lemma decode_token_rejects_early_token :
  let g := AuthUtils.initial_globals (H:=Demo.platform) in
  let t := Props.signed (H:=Demo.platform) g {[ "nbf" := JInt 4102444800 ]} in
  AuthUtils.decode_token (H:=Demo.platform) g 0 t = Props.rejected
  ∧ ¬ Props.malformed t
  ∧ ¬ Props.signature_invalid (H:=Demo.platform) g t
  ∧ ¬ Props.expired (H:=Demo.platform) 0 t.
Proof.
  intros g t. split; [by vm_compute|]. split; [done|]. split.
  - intros [_ Hn]. apply Hn. eexists. split; [reflexivity|].
    split; [done|]. split; [by vm_compute | done].
  - intros (c & [= <-] & v & e & Hv & _). done.
Qed.

(** ** Round trips and lifetimes *)

Section RoundTrip.
Context `{Platform}.
Import Jose AuthUtils Props.

Lemma initial_algorithm : ALGORITHM initial_globals = "HS256".
Proof. reflexivity. Qed.

(** On a dictionary of JSON values the conversion of the time claims
    changes no entry. *)
Lemma convert_time_claims_json (d : gmap string pyval) (k : string) :
  json_only d → convert_time_claims d !! k ≫= as_json = d !! k ≫= as_json.
Proof.
  intros Hd. rewrite convert_time_claims_lookup. case_bool_decide; [|done].
  destruct (d !! k) as [[j|us]|] eqn:E; try done.
  by destruct (Hd k _ E).
Qed.

(** Validation of claims whose expiry has been set, from the validation
    of the other claims. *)
Lemma validate_claims_with_exp (n x : Z) (m : gmap string json) :
  validate_claims n (delete "exp" m) = Return tt → n ≤ x →
  validate_claims n (<["exp" := JInt x]> m) = Return tt.
Proof.
  unfold validate_claims. rewrite !bind_Return_unit.
  unfold validate_iat, validate_nbf, validate_exp, validate_aud, validate_iss,
    validate_sub, validate_jti, validate_at_hash.
  rewrite lookup_insert_eq, !lookup_insert_ne by done.
  intros (Hiat & Hnbf & _ & Haud & _ & Hsub & Hjti & Hat) Hle.
  rewrite lookup_delete_ne in Hiat, Hnbf, Haud, Hsub, Hjti, Hat by done.
  repeat split; try done.
  simpl. destruct (Z.ltb_spec x (n - 0)); [lia | done].
Qed.

(** A token issued for a dictionary of JSON values decodes, up to its
    expiry, to the caller's claims with the kind and the expiry of the
    issuing function, provided python-jose accepts the caller's claims. *)
Lemma issued_token_decodes g d kind e now' (r : result token) :
  ALGORITHM g = "HS256" →
  json_only d →
  r = (payload <- dumps (issued_dict d kind e) ;;
       jws_sign payload (SECRET_KEY g) (ALGORITHM g)) →
  validate_claims (timegm now') (delete "exp" (omap as_json d)) = Return tt →
  timegm now' ≤ timegm e →
  ∃ tok c, r = Return tok
           ∧ decode_token g now' tok = Return c
           ∧ c !! "type" = Some (JStr kind)
           ∧ c !! "exp" = Some (JInt (timegm e))
           ∧ ∀ k, k ≠ "type" → k ≠ "exp" → c !! k = d !! k ≫= as_json.
Proof.
  intros Hg Hd Hr Hown Hle.
  destruct (sign_issued g d kind e r Hg Hr) as (Hret & _ & Hsome).
  destruct (Hsome Hd) as [tok Htok].
  destruct (Hret tok Htok) as (c & -> & Htype & Hexp & Hother).
  exists (signed g c), c. split; [done|].
  assert (Hk : ∀ k, k ≠ "type" → k ≠ "exp" → c !! k = d !! k ≫= as_json).
  { intros k ? ?. rewrite Hother by done. by apply convert_time_claims_json. }
  repeat split; try done.
  unfold decode_token. rewrite (decode_signed g now' c Hg).
  rewrite (validate_claims_ext _ c (<["exp" := JInt (timegm e)]> (omap as_json d))).
  - by rewrite (validate_claims_with_exp _ _ _ Hown Hle).
  - intros k Hreg. destruct (decide (k = "exp")) as [->|Hne].
    + by rewrite Hexp, lookup_insert_eq.
    + rewrite lookup_insert_ne, lookup_omap by done. apply Hk; [|done].
      intros ->. unfold registered in Hreg.
      rewrite !elem_of_cons, elem_of_nil in Hreg. naive_solver.
Qed.

(** C1. A token made by [create_access_token] for the claims
    [{"sub": s}] decodes, at any time up to its expiry, to claims whose
    [sub] is [s] and whose [type] is [access]; one made by
    [create_refresh_token] decodes with [type] equal to [refresh]. *)
Theorem token_round_trip (s : string) (now now' : Z) (data : loc) (h : heap) :
  h !! data = Some {[ "sub" := Json (JStr s) ]} →
  (timegm now' ≤ timegm now + 600 * 60 →
   ∃ tok h' claims,
     create_access_token initial_globals now data None h = (Return tok, h')
     ∧ decode_token initial_globals now' tok = Return claims
     ∧ claims !! "sub" = Some (JStr s)
     ∧ claims !! "type" = Some (JStr "access"))
  ∧ (timegm now' ≤ timegm now + 7 * 24 * 60 * 60 →
     ∃ tok h' claims,
       create_refresh_token initial_globals now data None h = (Return tok, h')
       ∧ decode_token initial_globals now' tok = Return claims
       ∧ claims !! "sub" = Some (JStr s)
       ∧ claims !! "type" = Some (JStr "refresh")).
Proof.
  intros Hdata.
  assert (Hjson : json_only ({[ "sub" := Json (JStr s) ]} : gmap string pyval)).
  { apply map_Forall_singleton. by eexists. }
  assert (Hown : validate_claims (timegm now')
                   (delete "exp" (omap as_json
                      ({[ "sub" := Json (JStr s) ]} : gmap string pyval)))
                 = Return tt).
  { rewrite (validate_claims_ext _ _ {[ "sub" := JStr s ]}); [done|].
    intros k _. destruct (decide (k = "exp")) as [->|Hne].
    - by rewrite lookup_delete_eq.
    - rewrite lookup_delete_ne, lookup_omap by done.
      destruct (decide (k = "sub")) as [->|Hs].
      + by rewrite !lookup_singleton_eq.
      + by rewrite !lookup_singleton_ne. }
  split; intros Hle.
  - rewrite create_access_token_run, Hdata. cbn [default expiry].
    destruct (issued_token_decodes initial_globals _ "access"
                (now + timedelta_minutes 600) now' _
                initial_algorithm Hjson eq_refl Hown)
      as (tok & c & Htok & Hdec & Htype & _ & Hk).
    { rewrite timegm_add_minutes. exact Hle. }
    exists tok; eexists; exists c. split; [|split; [done|split; [|done]]].
    + cbv zeta. f_equal. exact Htok.
    + rewrite Hk by done. by rewrite lookup_singleton_eq.
  - rewrite create_refresh_token_run, Hdata. cbn [default expiry].
    destruct (issued_token_decodes initial_globals _ "refresh"
                (now + timedelta_days 7) now' _
                initial_algorithm Hjson eq_refl Hown)
      as (tok & c & Htok & Hdec & Htype & _ & Hk).
    { rewrite timegm_add_days. exact Hle. }
    exists tok; eexists; exists c. split; [|split; [done|split; [|done]]].
    + cbv zeta. f_equal. exact Htok.
    + rewrite Hk by done. by rewrite lookup_singleton_eq.
Qed.

Lemma issued_as_holds g kind e d (r : result token) :
  ALGORITHM g = "HS256" →
  r = (payload <- dumps (issued_dict d kind e) ;;
       jws_sign payload (SECRET_KEY g) (ALGORITHM g)) →
  issued_as g kind e d r.
Proof.
  intros Hg Hr. split.
  - intros tok Htok.
    destruct (sign_issued g d kind e r Hg Hr) as (Hret & _ & _).
    destruct (Hret tok Htok) as (c & -> & Htype & Hexp & _).
    exists c. repeat split; try done.
    intros now' c'. unfold decode_token. rewrite (decode_signed g now' c Hg).
    destruct (validate_claims (timegm now') c) as [[]|x]; cbn [bind try_except].
    + by intros [= <-].
    + by destruct (is_JWTError x).
  - intros Hd now' Hown Hle.
    destruct (issued_token_decodes g d kind e now' r Hg Hd Hr Hown Hle)
      as (tok & c & ? & ? & ? & _).
    by exists tok, c.
Qed.

(** C9. The lifetimes are read from the module's globals, whose values at
    import are 600 minutes and 7 days; a token issued without an explicit
    [expires_delta] expires that far, in whole seconds, after it was
    issued, and a dictionary of JSON values does get its token. *)
Theorem default_token_lifetimes (g : globals) (now : Z) (data : loc) (h : heap) :
  ACCESS_TOKEN_EXPIRE_MINUTES initial_globals = 600
  ∧ REFRESH_TOKEN_EXPIRE_DAYS initial_globals = 7
  ∧ (ALGORITHM g = "HS256" →
     (∀ tok h', create_access_token g now data None h = (Return tok, h') →
        ∃ c, token_claims tok = Some c
             ∧ c !! "exp"
               = Some (JInt (timegm now + ACCESS_TOKEN_EXPIRE_MINUTES g * 60)))
     ∧ (∀ tok h', create_refresh_token g now data None h = (Return tok, h') →
          ∃ c, token_claims tok = Some c
               ∧ c !! "exp"
                 = Some (JInt (timegm now
                               + REFRESH_TOKEN_EXPIRE_DAYS g * 24 * 60 * 60)))
     ∧ (∀ d, h !! data = Some d → json_only d →
          (∃ tok h', create_access_token g now data None h = (Return tok, h'))
          ∧ (∃ tok h', create_refresh_token g now data None h = (Return tok, h')))).
Proof.
  split; [done|]. split; [done|]. intros Hg. split; [|split].
  - intros tok h'. rewrite create_access_token_run. cbv zeta. intros [= Htok _].
    destruct (sign_issued g (default ∅ (h !! data)) "access"
                (now + timedelta_minutes (ACCESS_TOKEN_EXPIRE_MINUTES g))
                _ Hg eq_refl) as (Hret & _ & _).
    destruct (Hret tok Htok) as (c & -> & _ & Hexp & _).
    exists c. split; [done|]. by rewrite Hexp, timegm_add_minutes.
  - intros tok h'. rewrite create_refresh_token_run. cbv zeta. intros [= Htok _].
    destruct (sign_issued g (default ∅ (h !! data)) "refresh"
                (now + timedelta_days (REFRESH_TOKEN_EXPIRE_DAYS g))
                _ Hg eq_refl) as (Hret & _ & _).
    destruct (Hret tok Htok) as (c & -> & _ & Hexp & _).
    exists c. split; [done|]. by rewrite Hexp, timegm_add_days.
  - intros d Hdata Hd.
    rewrite create_access_token_run, create_refresh_token_run, Hdata.
    cbv zeta. cbn [default expiry]. split.
    + destruct (sign_issued g d "access"
                  (now + timedelta_minutes (ACCESS_TOKEN_EXPIRE_MINUTES g))
                  _ Hg eq_refl) as (_ & _ & Hsome).
      destruct (Hsome Hd) as [tok Htok]. exists tok; eexists.
      f_equal. exact Htok.
    + destruct (sign_issued g d "refresh"
                  (now + timedelta_days (REFRESH_TOKEN_EXPIRE_DAYS g))
                  _ Hg eq_refl) as (_ & _ & Hsome).
      destruct (Hsome Hd) as [tok Htok]. exists tok; eexists.
      f_equal. exact Htok.
Qed.

(** C10. The issuing functions work on a copy: the caller's dictionary,
    and every dictionary that was on the heap, is as it was; and they
    overwrite [type] and [exp], so that an issued token carries, and
    decodes with, the kind and the expiry of the function that issued it,
    whatever the caller's dictionary held under these names. *)
Theorem issuing_copies_and_overwrites (now : Z) (data : loc)
    (expires_delta : option Z) (h : heap) (d : gmap string pyval) :
  h !! data = Some d →
  ((create_access_token initial_globals now data expires_delta h).2 !! data = Some d
   ∧ (∀ l, is_Some (h !! l) →
        (create_access_token initial_globals now data expires_delta h).2 !! l
        = h !! l)
   ∧ issued_as initial_globals "access"
       (expiry now expires_delta (timedelta_minutes 600)) d
       (create_access_token initial_globals now data expires_delta h).1)
  ∧ ((create_refresh_token initial_globals now data expires_delta h).2 !! data = Some d
     ∧ (∀ l, is_Some (h !! l) →
          (create_refresh_token initial_globals now data expires_delta h).2 !! l
          = h !! l)
     ∧ issued_as initial_globals "refresh"
         (expiry now expires_delta (timedelta_days 7)) d
         (create_refresh_token initial_globals now data expires_delta h).1).
Proof.
  intros Hdata.
  rewrite create_access_token_run, create_refresh_token_run, Hdata.
  cbv zeta. cbn [fst snd default]. split; (split; [|split]).
  - rewrite fresh_loc_frame by eauto. done.
  - intros l Hl. by apply fresh_loc_frame.
  - by apply issued_as_holds.
  - rewrite fresh_loc_frame by eauto. done.
  - intros l Hl. by apply fresh_loc_frame.
  - by apply issued_as_holds.
Qed.

End RoundTrip.

(** The test [test_create_and_decode_access_token_roundtrip], the token
    decoded as soon as it is made. *)
Lemma token_round_trip_test :
  ∃ tok h' claims,
    AuthUtils.create_access_token (H:=Demo.platform)
      (AuthUtils.initial_globals (H:=Demo.platform)) 0 1%positive None
      {[ 1%positive := {[ "sub" := Json (JStr "teacher-id-123") ]} ]}
    = (Return tok, h')
    ∧ AuthUtils.decode_token (H:=Demo.platform)
        (AuthUtils.initial_globals (H:=Demo.platform)) 0 tok = Return claims
    ∧ claims !! "sub" = Some (JStr "teacher-id-123")
    ∧ claims !! "type" = Some (JStr "access").
Proof.
  refine (proj1 (token_round_trip (H:=Demo.platform) "teacher-id-123" 0 0
                   1%positive
                   {[ 1%positive := {[ "sub" := Json (JStr "teacher-id-123") ]} ]}
                   _) _).
  - reflexivity.
  - by vm_compute.
Defined.

(** A caller's dictionary that already holds a [type] and an [exp]: it is
    left as it was, and the access token decodes as an access token. *)
Lemma issuing_overrides_conflicting_type :
  let g := AuthUtils.initial_globals (H:=Demo.platform) in
  let d : gmap string pyval :=
    <["sub" := Json (JStr "42")]>
      (<["type" := Json (JStr "refresh")]> (<["exp" := Json (JInt 1)]> ∅)) in
  let run := AuthUtils.create_access_token (H:=Demo.platform) g 0 1%positive None
               {[ 1%positive := d ]} in
  run.2 !! 1%positive = Some d
  ∧ ∃ tok c, run.1 = Return tok
             ∧ AuthUtils.decode_token (H:=Demo.platform) g 0 tok = Return c
             ∧ c !! "type" = Some (JStr "access").
Proof.
  intros g d run.
  destruct (issuing_copies_and_overwrites (H:=Demo.platform) 0 1%positive None
              {[ 1%positive := d ]} d (lookup_singleton_eq _ _))
    as [(Hframe & _ & _ & Hdecodes) _].
  split; [exact Hframe|].
  assert (Hd : Props.json_only d).
  { unfold Props.json_only, d.
    repeat (apply map_Forall_insert_2; [by eexists|]). apply map_Forall_empty. }
  apply (Hdecodes Hd 0); by vm_compute.
Defined.

(** ** The authentication gate *)

Section Gate.
Context `{Platform}.
Import Jose AuthUtils Props.





(** The lookup [.filter(Teacher.teacher_id == u).first()] in terms of the
    rows of the table: nothing when no row has the identifier, otherwise
    the first row that has it. *)
Lemma teacher_by_id_None (u : Z) (rows : list Teacher) :
  (∀ r, r ∈ rows → teacher_id r ≠ u) → teacher_by_id u rows = None.
Proof.
  unfold teacher_by_id. induction rows as [|r rows IH]; intros Hno; [reflexivity|].
  cbn [find]. destruct (Z.eqb_spec (teacher_id r) u) as [Heq|_].
  - destruct (Hno r (list_elem_of_here _ _) Heq).
  - apply IH. intros r' Hr'. apply Hno. by apply list_elem_of_further.
Qed.

Lemma teacher_by_id_first (u : Z) (before after : list Teacher)
    (teacher : Teacher) :
  teacher_id teacher = u →
  Forall (fun r => teacher_id r ≠ u) before →
  teacher_by_id u (before ++ teacher :: after)%list = Some teacher.
Proof.
  unfold teacher_by_id. intros Hid Hbefore.
  induction Hbefore as [|r before Hr _ IH]; cbn [app find].
  - by rewrite (proj2 (Z.eqb_eq _ _) Hid).
  - by rewrite (proj2 (Z.eqb_neq _ _) Hr).
Qed.




End Gate.


(** ** Verification codes *)

Section Codes.
Import Code Props.

Lemma chars_join (cs : list ascii) : Password.chars (join cs) = cs.
Proof. induction cs as [|c cs IH]; simpl; [done | by rewrite IH]. Qed.

Lemma length_join (cs : list ascii) : String.length (join cs) = length cs.
Proof. induction cs as [|c cs IH]; simpl; [done | by rewrite IH]. Qed.

Lemma digits_are_digits (i : fin 10) : Password.is_digit (digits !!! i) = true.
Proof.
  assert (Hall : Forall (fun c => Password.is_digit c = true) (vec_to_list digits)).
  { repeat constructor. }
  rewrite Forall_forall in Hall. apply Hall. apply elem_of_vlookup. eauto.
Qed.

(** A generated code has the requested length and consists of digits. *)
Lemma generate_verification_code_digits (draw : nat → fin 10) (n : nat) :
  String.length (generate_verification_code draw n) = n
  ∧ all_digits (generate_verification_code draw n).
Proof.
  unfold generate_verification_code, random_choices, all_digits. split.
  - by rewrite length_join, length_fmap, length_seq.
  - rewrite chars_join. apply Forall_fmap, Forall_forall.
    intros i _. apply digits_are_digits.
Qed.

End Codes.

(** ** The endpoints *)

Section EndpointFacts.
Context `{Platform}.
Variable CODE_EXPIRE_MINUTES : Z.
Import AuthUtils Endpoints Props.

Lemma issue_tokens_Return (now u : Z) :
  ∃ access refresh, issue_tokens initial_globals now u = Return (access, refresh).
Proof.
  unfold issue_tokens.
  rewrite create_access_token_run. cbv beta iota zeta.
  rewrite create_refresh_token_run. cbv beta iota zeta.
  rewrite lookup_insert_ne, !lookup_singleton_eq.
  2:{ intros Heq. pose proof (is_fresh (dom ({[ 1%positive :=
        ({[ "sub" := Json (JStr (str_of_uuid u)) ]} : gmap string pyval) ]}
        : gmap positive (gmap string pyval)))) as Hf.
      rewrite Heq in Hf. apply Hf, elem_of_dom. rewrite lookup_singleton_eq. eauto. }
  cbn [default].
  assert (Hjson : json_only ({[ "sub" := Json (JStr (str_of_uuid u)) ]}
                             : gmap string pyval)).
  { apply map_Forall_singleton. by eexists. }
  repeat match goal with
  | |- context [Py.bind (Jose.dumps (issued_dict ?d ?k ?e)) _] =>
      let Hs := fresh "Hs" in
      destruct (sign_issued initial_globals d k e _ initial_algorithm eq_refl)
        as (_ & _ & Hs);
      destruct (Hs Hjson) as [? ->]; clear Hs
  end.
  cbn [bind]. eauto.
Qed.


Lemma teacher_by_email_new (e : string) (rows : list Teacher) (t : Teacher) :
  teacher_by_email e rows = None → email t = e →
  teacher_by_email e (rows ++ [t])%list = Some t.
Proof.
  intros Hnone He. unfold teacher_by_email in *.
  induction rows as [|r rows IH]; simpl in *.
  - by rewrite He, String.eqb_refl.
  - destruct (String.eqb (email r) e); [done | by apply IH].
Qed.

(** C6. A login attempt for an unknown email and one with a password that
    does not match the stored hash fail with the same exception: status
    401 and the message "invalid email or password" (capitalised, as the
    tests read it).  Any two failed attempts are indistinguishable, and an
    attempt with a known email and the matching password does not fail. *)
Theorem login_failures_indistinguishable (now : Z)
    (req_email req_password : string) (s : db) :
  let g := initial_globals in
  (teacher_by_email req_email (teachers s) = None →
   login g now req_email req_password s = Raise login_failure)
  ∧ (∀ teacher, teacher_by_email req_email (teachers s) = Some teacher →
       Bcrypt.check_user_password req_password (hashed_password teacher) = false →
       login g now req_email req_password s = Raise login_failure)
  ∧ (∀ teacher, teacher_by_email req_email (teachers s) = Some teacher →
       Bcrypt.check_user_password req_password (hashed_password teacher) = true →
       ∃ resp, login g now req_email req_password s = Return resp
               ∧ status resp = 200)
  ∧ status_of login_failure = Some 401
  ∧ detail_of login_failure = Some "Invalid email or password"
  ∧ lower "Invalid email or password" = "invalid email or password"
  ∧ (∀ now2 email2 password2 s2 e1 e2,
       login g now req_email req_password s = Raise e1 →
       login g now2 email2 password2 s2 = Raise e2 →
       e1 = e2).
Proof.
  intros g.
  assert (Hfail : ∀ n e p d x, login g n e p d = Raise x → x = login_failure).
  { intros n e p d x. unfold login.
    destruct (teacher_by_email e (teachers d)) as [t|]; [|by intros [= <-]].
    destruct (Bcrypt.check_user_password p (hashed_password t));
      cbn [negb]; [|by intros [= <-]].
    destruct (issue_tokens_Return n (teacher_id t)) as (a & r & Htok).
    unfold g. by rewrite Htok. }
  repeat split; try done.
  - intros Hnone. unfold login. by rewrite Hnone.
  - intros teacher Hrow Hpw. unfold login. by rewrite Hrow, Hpw.
  - intros teacher Hrow Hpw. unfold login. rewrite Hrow, Hpw. cbn [negb].
    destruct (issue_tokens_Return now (teacher_id teacher)) as (a & r & Htok).
    unfold g. rewrite Htok. cbn [bind]. eauto.
  - intros now2 email2 password2 s2 e1 e2 H1 H2.
    apply Hfail in H1, H2. congruence.
Qed.


(** C8. A code stored by [send_verification_code] for an email lets
    [signup], called with that code no later than its expiry and with a
    password the policy accepts, succeed once: the teacher row is created
    and the code row deleted, so that any further [signup] for the email
    with the code fails with status 400 and the message "no verification
    code found". *)
Theorem signup_consumes_code (now : Z) (draw : nat → fin 10)
    (req_email req_teacher_name : string) (s s1 : db) (sent : response) :
  send_verification_code CODE_EXPIRE_MINUTES now draw req_email req_teacher_name s
  = (Return sent, s1) →
  ∃ row,
    verification_codes s1 !! req_email = Some row
    ∧ expiry_time row = now + timedelta_minutes CODE_EXPIRE_MINUTES
    ∧ String.length (code row) = 6%nat
    ∧ ∀ now' new_id raw_salt password,
        now' ≤ expiry_time row →
        Password.validate_password password = Return tt →
        ∃ resp s2,
          signup initial_globals now' new_id raw_salt
            req_email req_teacher_name password (code row) s1
          = (Return resp, s2)
          ∧ status resp = 201
          ∧ (∃ teacher, teacher_by_email req_email (teachers s2) = Some teacher
                        ∧ teacher_id teacher = new_id
                        ∧ teacher_name teacher = req_teacher_name
                        ∧ teachers s2 = (teachers s1 ++ [teacher])%list)
          ∧ verification_codes s2 = delete req_email (verification_codes s1)
          ∧ ∀ now'' new_id' raw_salt' name' password',
              signup initial_globals now'' new_id' raw_salt'
                req_email name' password' (code row) s2
              = (Raise (HTTPException 400 "No verification code found" None), s2).
Proof.
  unfold send_verification_code.
  destruct (teacher_by_email req_email (teachers s)) eqn:Hnew; [done|].
  intros [= <- <-]. cbn [verification_codes teachers].
  eexists. split; [apply lookup_insert_eq|]. cbn [expiry_time code].
  split; [done|].
  split; [apply generate_verification_code_digits|].
  intros now' new_id raw_salt password Hnow Hpw.
  unfold signup at 1. cbn [verification_codes teachers].
  rewrite lookup_insert_eq. cbn [code expiry_time].
  rewrite String.eqb_refl. cbn [negb].
  destruct (Z.ltb_spec (now + timedelta_minutes CODE_EXPIRE_MINUTES) now');
    [lia|].
  rewrite Hpw.
  destruct (issue_tokens_Return now' new_id) as (a & r & ->). cbn [bind].
  eexists _, _. split; [reflexivity|]. cbn [status teachers verification_codes].
  split; [done|]. split; [|split; [done|]].
  - eexists. split; [by apply teacher_by_email_new|]. done.
  - intros now'' new_id' raw_salt' name' password'. unfold signup.
    cbn [verification_codes]. by rewrite lookup_delete_eq.
Qed.

End EndpointFacts.

(** The test [test_signup_success] on an empty store, with a window of ten
    minutes: the code that was sent is found and signs the teacher up. *)
Lemma signup_after_send_test :
  let s1 := (Endpoints.send_verification_code 10 0 (fun _ => 3%fin)
               "signup@test.com" "Signup Teacher"
               {| teachers := []; verification_codes := ∅ |}).2 in
  ∃ row,
    verification_codes s1 !! "signup@test.com" = Some row
    ∧ ∃ resp s2,
        Endpoints.signup (H:=Demo.platform)
          (AuthUtils.initial_globals (H:=Demo.platform)) 0 7
          "abcdefghijklmnopqrstuv" "signup@test.com" "Signup Teacher"
          "SecurePass123" (code row) s1
        = (Return resp, s2)
        ∧ Endpoints.status resp = 201.
Proof.
  intros s1.
  edestruct (signup_consumes_code (H:=Demo.platform) 10 0 (fun _ => 3%fin)
               "signup@test.com" "Signup Teacher"
               {| teachers := []; verification_codes := ∅ |})
    as (row & Hrow & Hexp & _ & Hsign).
  { reflexivity. }
  exists row. split; [exact Hrow|].
  destruct (Hsign 0 7 "abcdefghijklmnopqrstuv" "SecurePass123")
    as (resp & s2 & Hs & Hst & _); [by rewrite Hexp | reflexivity |].
  by exists resp, s2.
Defined.

(** * Further properties of [authUtils.py] *)

(** ** Verification codes, continued *)

Section MoreCodes.
Import Code Props.

Lemma join_inj (cs1 cs2 : list ascii) : join cs1 = join cs2 → cs1 = cs2.
Proof. intros Heq. by rewrite <- (chars_join cs1), <- (chars_join cs2), Heq. Qed.

Lemma fmap_seq_eq {A : Type} (f g : nat → A) (n : nat) :
  f <$> seq 0 n = g <$> seq 0 n ↔ ∀ i, (i < n)%nat → f i = g i.
Proof.
  induction n as [|n IH].
  - split; [intros _ i Hi; lia | done].
  - rewrite seq_S, !fmap_app. simpl. split.
    + intros Heq. apply app_inj_2 in Heq as [Hinit Hlast]; [|done].
      injection Hlast as Hlast. intros i Hi.
      destruct (decide (i = n)) as [->|Hne]; [done|].
      apply IH; [done | lia].
    + intros Hall. f_equal.
      * apply IH. intros i Hi. apply Hall. lia.
      * f_equal. apply Hall. lia.
Qed.

Lemma digits_inj (i j : fin 10) : digits !!! i = digits !!! j → i = j.
Proof.
  intros Heq. apply (inj fin_to_nat).
  assert (Hnd : NoDup (vec_to_list digits)).
  { apply (bool_decide_unpack (NoDup (vec_to_list digits))). by vm_compute. }
  apply (NoDup_lookup _ _ _ (digits !!! i) Hnd).
  - by apply vlookup_lookup.
  - rewrite Heq. by apply vlookup_lookup.
Qed.

(** X1. A code has exactly the requested number of characters, all of
    them decimal digits; with the default length these are six, and a
    length of zero gives the empty string. *)
Theorem generate_verification_code_shape (draw : nat → fin 10) (n : nat) :
  String.length (generate_verification_code draw n) = n
  ∧ all_digits (generate_verification_code draw n)
  ∧ String.length (generate_verification_code draw DEFAULT_CODE_LENGTH) = 6%nat
  ∧ generate_verification_code draw 0 = "".
Proof.
  destruct (generate_verification_code_digits draw n) as [Hlen Hdig].
  destruct (generate_verification_code_digits draw DEFAULT_CODE_LENGTH) as [H6 _].
  by repeat split.
Qed.

(** X2. The code is a function of the first draws, one digit per draw,
    and loses none of them: two runs give the same code exactly when
    their draws agree up to the length of the code. *)
Theorem generate_verification_code_draws (draw1 draw2 : nat → fin 10) (n : nat) :
  generate_verification_code draw1 n = generate_verification_code draw2 n
  ↔ ∀ i, (i < n)%nat → draw1 i = draw2 i.
Proof.
  unfold generate_verification_code, random_choices. split.
  - intros Heq%join_inj i Hi. apply digits_inj.
    by apply (proj1 (fmap_seq_eq _ _ n) Heq).
  - intros Hall. f_equal. apply fmap_seq_eq. intros i Hi. by rewrite Hall.
Qed.

End MoreCodes.

(** ** Password policy, continued *)

Section MorePasswordPolicy.
Import Password Props.

Lemma length_chars (p : string) : length (chars p) = String.length p.
Proof. induction p as [|a p IH]; simpl; [done | by rewrite IH]. Qed.

Lemma chars_app (p q : string) : chars (p +:+ q) = (chars p ++ chars q)%list.
Proof. induction p as [|a p IH]; simpl; [done | by rewrite IH]. Qed.

Lemma is_none_re_search_ext (cls : ascii → bool) (p q : string) :
  (∀ c, c ∈ chars p ↔ c ∈ chars q) →
  is_none (re_search cls p) = is_none (re_search cls q).
Proof.
  intros Hpq.
  destruct (is_none (re_search cls q)) eqn:Hq.
  - apply re_search_missing. apply re_search_missing in Hq.
    intros (c & Hc & Hcls). apply Hq. exists c. split; [by apply Hpq | done].
  - apply re_search_found. apply re_search_found in Hq as (c & Hc & Hcls).
    exists c. split; [by apply Hpq | done].
Qed.

(** X3. The verdict on a password depends on which characters it holds and
    on how many, not on their order: two passwords that are permutations
    of each other get the same outcome. *)
Theorem validate_password_permutation (p q : string) :
  chars p ≡ₚ chars q → validate_password p = validate_password q.
Proof.
  intros Hperm. unfold validate_password.
  rewrite <- (length_chars p), <- (length_chars q), (Permutation_length Hperm).
  rewrite (is_none_re_search_ext is_letter p q),
          (is_none_re_search_ext is_digit p q); [done|..];
    intros c; by rewrite Hperm.
Qed.

(** X4. An accepted password stays accepted when characters are added in
    front of it or behind it: the policy has lower bounds only. *)
Theorem validate_password_extend (p before after : string) :
  validate_password p = Return tt →
  validate_password (before +:+ p +:+ after) = Return tt.
Proof.
  unfold validate_password.
  destruct (Z.ltb_spec (Z.of_nat (String.length p)) 6) as [|Hlen]; [done|].
  destruct (is_none (re_search is_letter p)) eqn:Hl; [done|].
  destruct (is_none (re_search is_digit p)) eqn:Hd; [done|]. intros _.
  assert (Hin : ∀ c, c ∈ chars p → c ∈ chars (before +:+ p +:+ after)).
  { intros c Hc. rewrite !chars_app, !elem_of_app. auto. }
  assert (Hlen' : (String.length p ≤ String.length (before +:+ p +:+ after))%nat).
  { rewrite <- !length_chars, !chars_app, !length_app. lia. }
  destruct (Z.ltb_spec (Z.of_nat (String.length (before +:+ p +:+ after))) 6);
    [lia|].
  apply re_search_found in Hl as (c & Hc & Hcls).
  apply re_search_found in Hd as (c' & Hc' & Hcls').
  rewrite (proj2 (re_search_found is_letter _)) by eauto.
  by rewrite (proj2 (re_search_found is_digit _)) by eauto.
Qed.

End MorePasswordPolicy.

Lemma validate_password_permutation_test :
  Password.validate_password "Test123" = Password.validate_password "321tseT".
Proof.
  apply validate_password_permutation.
  change (Password.chars "321tseT") with (reverse (Password.chars "Test123")).
  by rewrite reverse_Permutation.
Defined.

Lemma validate_password_extend_test :
  Password.validate_password ("!" +:+ "Test123" +:+ " and more") = Return tt.
Proof. apply validate_password_extend. reflexivity. Defined.

(** ** Password hashing, continued *)

Section MoreHashing.
Context `{Platform}.
Import Bcrypt.

Lemma string_app_inv_head (s a b : string) : s +:+ a = s +:+ b → a = b.
Proof. induction s as [|c s IH]; simpl; [done|]. intros [= Heq]. auto. Qed.

(** X5. A password verifies against a hash made by [hash_password] exactly
    when bcrypt derives the same digest from it, under the salt of the
    hash, as from the password that was hashed: a wrong password is
    refused unless the digests collide. *)
Theorem check_user_password_digest (p p' raw : string) :
  String.length raw = 22%nat →
  check_user_password p' (hash_password raw p) = true
  ↔ bcrypt_digest (gensalt raw) p' = bcrypt_digest (gensalt raw) p.
Proof.
  intros Hraw. unfold check_user_password, checkpw.
  rewrite String.eqb_eq. unfold hashpw at 1.
  rewrite (setting_of_hash_password raw p Hraw).
  unfold hash_password, hashpw. rewrite (setting_of_gensalt raw Hraw).
  split; [apply string_app_inv_head | by intros ->].
Qed.

End MoreHashing.

(** The test [test_hash_and_check_password_roundtrip]: the wrong password
    is refused. *)
Lemma check_user_password_wrong_test :
  Bcrypt.check_user_password (H:=Demo.platform) "WrongPass123"
    (Bcrypt.hash_password (H:=Demo.platform) "abcdefghijklmnopqrstuv" "ValidPass123")
  = false.
Proof.
  destruct (Bcrypt.check_user_password (H:=Demo.platform) "WrongPass123" _) eqn:E;
    [|reflexivity].
  apply (check_user_password_digest (H:=Demo.platform)) in E; [|reflexivity].
  discriminate E.
Defined.

(** ** Issuing and decoding, continued *)

Section MoreTokens.
Context `{Platform}.
Import Jose AuthUtils Props Props2.

(** Signing an issued dictionary of JSON values. *)
Lemma issue_json g d kind e :
  ALGORITHM g = "HS256" → json_only d →
  ∃ c, (payload <- dumps (issued_dict d kind e) ;;
        jws_sign payload (SECRET_KEY g) (ALGORITHM g)) = Return (signed g c)
       ∧ c !! "type" = Some (JStr kind)
       ∧ c !! "exp" = Some (JInt (timegm e))
       ∧ ∀ k, k ≠ "type" → k ≠ "exp" → c !! k = d !! k ≫= as_json.
Proof.
  intros Hg Hd.
  destruct (sign_issued g d kind e _ Hg eq_refl) as (Hret & _ & Hsome).
  destruct (Hsome Hd) as [tok Htok].
  destruct (Hret tok Htok) as (c & -> & Htype & Hexp & Hother).
  exists c. repeat split; try done.
  intros k ? ?. rewrite Hother by done. by apply convert_time_claims_json.
Qed.

Lemma json_only_sub (s : string) :
  json_only ({[ "sub" := Json (JStr s) ]} : gmap string pyval).
Proof. apply map_Forall_singleton. by eexists. Qed.

(** The claims of a token issued for [{"sub": s}]. *)
Lemma sub_claims (s : string) (c : gmap string json) (k : string) :
  (∀ k, k ≠ "type" → k ≠ "exp" →
        c !! k = ({[ "sub" := Json (JStr s) ]} : gmap string pyval) !! k ≫= as_json) →
  k ≠ "type" → k ≠ "exp" →
  c !! k = if decide (k = "sub") then Some (JStr s) else None.
Proof.
  intros Hc Ht He. rewrite Hc by done. case_decide as Hk.
  - subst. by rewrite lookup_singleton_eq.
  - by rewrite lookup_singleton_ne.
Qed.

Lemma sub_claims_validate (n e : Z) (s kind : string) (c : gmap string json) :
  c !! "exp" = Some (JInt e) →
  (∀ k, k ≠ "type" → k ≠ "exp" →
        c !! k = ({[ "sub" := Json (JStr s) ]} : gmap string pyval) !! k ≫= as_json) →
  validate_claims n c
  = if e <? n then Raise ExpiredSignatureError else Return tt.
Proof.
  intros Hexp Hc.
  unfold validate_claims, validate_iat, validate_nbf, validate_exp,
    validate_aud, validate_iss, validate_sub, validate_jti, validate_at_hash.
  rewrite Hexp, !(sub_claims s c _ Hc) by done. simpl.
  rewrite Z.sub_0_r. by destruct (e <? n).
Qed.

(** X6. An explicit [expires_delta] sets the expiry of the token to the
    whole second of now plus the delta, also for a negative delta; a delta
    of zero counts as none and gives the default lifetime. *)
Theorem create_token_expires_delta (now delta : Z) (data : loc) (h : heap)
    (d : gmap string pyval) :
  h !! data = Some d → json_only d →
  (∃ tok h' c,
     create_access_token initial_globals now data (Some delta) h = (Return tok, h')
     ∧ token_claims tok = Some c
     ∧ c !! "exp" = Some (JInt (if decide (delta = 0)
                                then timegm now + 600 * 60
                                else timegm (now + delta))))
  ∧ (∃ tok h' c,
       create_refresh_token initial_globals now data (Some delta) h = (Return tok, h')
       ∧ token_claims tok = Some c
       ∧ c !! "exp" = Some (JInt (if decide (delta = 0)
                                  then timegm now + 7 * 24 * 60 * 60
                                  else timegm (now + delta)))).
Proof.
  intros Hdata Hd.
  rewrite create_access_token_run, create_refresh_token_run, Hdata.
  cbv zeta. cbn [default expiry]. split.
  - destruct (issue_json initial_globals d "access"
                (if delta =? 0
                 then now + timedelta_minutes (ACCESS_TOKEN_EXPIRE_MINUTES initial_globals)
                 else now + delta) initial_algorithm Hd)
      as (c & Htok & _ & Hexp & _).
    exists (signed initial_globals c); eexists; exists c.
    split; [f_equal; exact Htok|]. split; [done|]. rewrite Hexp.
    case_decide as Hz.
    + subst. by rewrite <- timegm_add_minutes.
    + by rewrite (proj2 (Z.eqb_neq _ _) Hz).
  - destruct (issue_json initial_globals d "refresh"
                (if delta =? 0
                 then now + timedelta_days (REFRESH_TOKEN_EXPIRE_DAYS initial_globals)
                 else now + delta) initial_algorithm Hd)
      as (c & Htok & _ & Hexp & _).
    exists (signed initial_globals c); eexists; exists c.
    split; [f_equal; exact Htok|]. split; [done|]. rewrite Hexp.
    case_decide as Hz.
    + subst. by rewrite <- timegm_add_days.
    + by rewrite (proj2 (Z.eqb_neq _ _) Hz).
Qed.

(** X7. A token issued for [{"sub": s}] is good exactly until its expiry:
    decoded while the clock, in whole seconds, has not passed the expiry
    it returns the subject; decoded later it fails with 401. *)
Theorem access_token_valid_until_expiry (s : string) (now : Z)
    (expires_delta : option Z) (data : loc) (h : heap) :
  h !! data = Some {[ "sub" := Json (JStr s) ]} →
  ∃ tok h',
    create_access_token initial_globals now data expires_delta h = (Return tok, h')
    ∧ ∀ now',
        (timegm now' ≤ timegm (expiry now expires_delta (timedelta_minutes 600)) →
         ∃ c, decode_token initial_globals now' tok = Return c
              ∧ c !! "sub" = Some (JStr s))
        ∧ (timegm (expiry now expires_delta (timedelta_minutes 600)) < timegm now' →
           decode_token initial_globals now' tok = rejected).
Proof.
  intros Hdata. rewrite create_access_token_run, Hdata. cbv zeta. cbn [default].
  destruct (issue_json initial_globals _ "access"
              (expiry now expires_delta (timedelta_minutes 600))
              initial_algorithm (json_only_sub s))
    as (c & Htok & _ & Hexp & Hc).
  exists (signed initial_globals c); eexists. split; [f_equal; exact Htok|].
  intros now'. unfold decode_token.
  rewrite (decode_signed initial_globals now' c initial_algorithm).
  rewrite (sub_claims_validate _ _ s "access" c Hexp Hc).
  split; intros Hle.
  - destruct (Z.ltb_spec (timegm (expiry now expires_delta (timedelta_minutes 600)))
                (timegm now')); [lia|].
    exists c. split; [done|]. by rewrite (sub_claims s c "sub" Hc).
  - by destruct (Z.ltb_spec (timegm (expiry now expires_delta (timedelta_minutes 600)))
                  (timegm now')); [|lia].
Qed.

End MoreTokens.

(** A token issued two seconds into the past carries that expiry. *)
Lemma create_token_expires_delta_test :
  ∃ tok h' c,
    AuthUtils.create_access_token (H:=Demo.platform)
      (AuthUtils.initial_globals (H:=Demo.platform)) 5000000 1%positive
      (Some (-2000000))
      {[ 1%positive := {[ "sub" := Json (JStr "teacher-id") ]} ]}
    = (Return tok, h')
    ∧ Props.token_claims tok = Some c
    ∧ c !! "exp" = Some (JInt 3).
Proof.
  exact (proj1 (create_token_expires_delta (H:=Demo.platform) 5000000 (-2000000)
                  1%positive
                  {[ 1%positive := {[ "sub" := Json (JStr "teacher-id") ]} ]}
                  {[ "sub" := Json (JStr "teacher-id") ]}
                  (lookup_singleton_eq _ _) (json_only_sub "teacher-id"))).
Defined.

(** The test [test_custom_expiry_delta_is_respected]: a lifetime of one
    second, the token decoded at once. *)
Lemma access_token_valid_until_expiry_test :
  ∃ tok h',
    AuthUtils.create_access_token (H:=Demo.platform)
      (AuthUtils.initial_globals (H:=Demo.platform)) 0 1%positive (Some 1000000)
      {[ 1%positive := {[ "sub" := Json (JStr "teacher-id") ]} ]}
    = (Return tok, h')
    ∧ ∃ c, AuthUtils.decode_token (H:=Demo.platform)
             (AuthUtils.initial_globals (H:=Demo.platform)) 0 tok = Return c
           ∧ c !! "sub" = Some (JStr "teacher-id").
Proof.
  destruct (access_token_valid_until_expiry (H:=Demo.platform) "teacher-id" 0
              (Some 1000000) 1%positive
              {[ 1%positive := {[ "sub" := Json (JStr "teacher-id") ]} ]}
              (lookup_singleton_eq _ _))
    as (tok & h' & Hrun & Hdec).
  exists tok, h'. split; [exact Hrun|].
  apply (proj1 (Hdec 0)). by vm_compute.
Defined.

(** ** The authentication gate, continued *)

Section MoreGate.
Context `{Platform}.
Import Jose AuthUtils Props Props2.

(** The gate on a cookie that holds a token other than the empty string. *)
Lemma get_current_teacher_token g now t rows :
  t ≠ Malformed "" →
  get_current_teacher g now (Some t) rows
  = (payload <- decode_token g now t ;;
     if negb (from_option (fun v => eq_str v "access") false (get payload "type"))
     then Raise (unauthorized "Invalid token type")
     else
       match get payload "sub" with
       | None => Raise (unauthorized "Could not validate credentials")
       | Some teacher_id =>
           teacher_uuid <-
             try_except (UUID teacher_id) is_ValueError
               (Raise (unauthorized "Invalid teacher ID format")) ;;
           match teacher_by_id teacher_uuid rows with
           | None => Raise (unauthorized "Teacher not found")
           | Some teacher => Return teacher
           end
       end).
Proof. intros Ht. by destruct t as [j|[|a raw]]. Qed.



End MoreGate.

Section TokensAtTheGate.
Context `{Platform}.
Import Jose AuthUtils Props Props2.

Lemma signed_not_empty g c : signed g c ≠ Malformed "".
Proof. done. Qed.

(** The token an issuing function makes for [{"sub": s}]. *)
Lemma create_access_token_sub (s : string) now expires_delta data h :
  h !! data = Some {[ "sub" := Json (JStr s) ]} →
  ∃ c h',
    create_access_token initial_globals now data expires_delta h
    = (Return (signed initial_globals c), h')
    ∧ c !! "type" = Some (JStr "access")
    ∧ c !! "exp"
      = Some (JInt (timegm (expiry now expires_delta (timedelta_minutes 600))))
    ∧ ∀ k, k ≠ "type" → k ≠ "exp" →
           c !! k = ({[ "sub" := Json (JStr s) ]} : gmap string pyval) !! k
                    ≫= as_json.
Proof.
  intros Hdata. rewrite create_access_token_run, Hdata. cbv zeta.
  cbn [default]. unfold id.
  change (ACCESS_TOKEN_EXPIRE_MINUTES initial_globals) with 600.
  destruct (issue_json initial_globals {[ "sub" := Json (JStr s) ]} "access"
              (expiry now expires_delta (timedelta_minutes 600))
              initial_algorithm (json_only_sub s))
    as (c & Htok & Htype & Hexp & Hc).
  rewrite Htok. exists c; eexists.
  exact (conj eq_refl (conj Htype (conj Hexp Hc))).
Qed.

Lemma create_refresh_token_sub (s : string) now expires_delta data h :
  h !! data = Some {[ "sub" := Json (JStr s) ]} →
  ∃ c h',
    create_refresh_token initial_globals now data expires_delta h
    = (Return (signed initial_globals c), h')
    ∧ c !! "type" = Some (JStr "refresh")
    ∧ c !! "exp"
      = Some (JInt (timegm (expiry now expires_delta (timedelta_days 7))))
    ∧ ∀ k, k ≠ "type" → k ≠ "exp" →
           c !! k = ({[ "sub" := Json (JStr s) ]} : gmap string pyval) !! k
                    ≫= as_json.
Proof.
  intros Hdata. rewrite create_refresh_token_run, Hdata. cbv zeta.
  cbn [default]. unfold id.
  change (REFRESH_TOKEN_EXPIRE_DAYS initial_globals) with 7.
  destruct (issue_json initial_globals {[ "sub" := Json (JStr s) ]} "refresh"
              (expiry now expires_delta (timedelta_days 7))
              initial_algorithm (json_only_sub s))
    as (c & Htok & Htype & Hexp & Hc).
  rewrite Htok. exists c; eexists.
  exact (conj eq_refl (conj Htype (conj Hexp Hc))).
Qed.

(** Decoding a signed token whose claims are those of [{"sub": s}]. *)
Lemma decode_sub_token (s : string) (e now' : Z) (c : gmap string json) :
  c !! "exp" = Some (JInt e) →
  (∀ k, k ≠ "type" → k ≠ "exp" →
        c !! k = ({[ "sub" := Json (JStr s) ]} : gmap string pyval) !! k
                 ≫= as_json) →
  decode_token initial_globals now' (signed initial_globals c)
  = if e <? timegm now' then rejected else Return c.
Proof.
  intros Hexp Hc. unfold decode_token.
  rewrite (decode_signed initial_globals now' c initial_algorithm).
  rewrite (sub_claims_validate _ _ s "" c Hexp Hc).
  by destruct (e <? timegm now').
Qed.

(** The gate on a token that decodes. *)
Lemma get_current_teacher_decoded g now t c rows :
  t ≠ Malformed "" → decode_token g now t = Return c →
  get_current_teacher g now (Some t) rows
  = match c !! "type" with
    | Some (JStr "access") =>
        match get c "sub" with
        | None => Raise (unauthorized "Could not validate credentials")
        | Some teacher_id =>
            teacher_uuid <-
              try_except (UUID teacher_id) is_ValueError
                (Raise (unauthorized "Invalid teacher ID format")) ;;
            match teacher_by_id teacher_uuid rows with
            | None => Raise (unauthorized "Teacher not found")
            | Some teacher => Return teacher
            end
        end
    | _ => Raise (unauthorized "Invalid token type")
    end.
Proof.
  intros Ht Hdec. rewrite (get_current_teacher_token _ _ _ _ Ht), Hdec.
  cbn [bind]. unfold get at 1.
  destruct (c !! "type") as [[| | |k| |]|]; try reflexivity.
  cbn [from_option eq_str].
  destruct (String.eqb_spec k "access") as [->|Hne]; [reflexivity|].
  cbn [negb]. repeat (destruct k as [|[[] [] [] [] [] [] [] []] k]; try done).
Qed.

(** X9. A refresh token does not pass the gate: a token that
    [create_refresh_token] issued for [{"sub": s}], presented as the
    access cookie while it is still valid, decodes, and is refused with
    "Invalid token type" whatever the teacher table holds. *)
Theorem refresh_token_refused (s : string) (now now' : Z)
    (expires_delta : option Z) (data : loc) (h : heap) (rows : list Teacher) :
  h !! data = Some {[ "sub" := Json (JStr s) ]} →
  timegm now' ≤ timegm (expiry now expires_delta (timedelta_days 7)) →
  ∃ tok h',
    create_refresh_token initial_globals now data expires_delta h = (Return tok, h')
    ∧ (∃ c, decode_token initial_globals now' tok = Return c)
    ∧ get_current_teacher initial_globals now' (Some tok) rows
      = Raise (unauthorized "Invalid token type").
Proof.
  intros Hdata Hle.
  destruct (create_refresh_token_sub s now expires_delta data h Hdata)
    as (c & h' & Hrun & Htype & Hexp & Hc).
  exists (signed initial_globals c), h'. split; [exact Hrun|].
  pose proof (decode_sub_token s _ now' c Hexp Hc) as Hdec.
  destruct (Z.ltb_spec (timegm (expiry now expires_delta (timedelta_days 7)))
              (timegm now')); [lia|].
  split; [eauto|].
  rewrite (get_current_teacher_decoded _ _ _ c rows (signed_not_empty _ c) Hdec).
  by rewrite Htype.
Qed.

(** X10. An access token passes the gate for the teacher it names: a
    token that [create_access_token] issued for [{"sub": s}], presented
    while it is still valid, yields the first row of the table whose
    identifier is the one [s] parses to; it is refused with "Invalid
    teacher ID format" when [s] is no UUID and with "Teacher not found"
    when no row of the table has the identifier; and once it has expired
    it is refused with "Could not validate credentials". *)
Theorem access_token_admitted (s : string) (now : Z)
    (expires_delta : option Z) (data : loc) (h : heap) :
  h !! data = Some {[ "sub" := Json (JStr s) ]} →
  ∃ tok h',
    create_access_token initial_globals now data expires_delta h = (Return tok, h')
    ∧ ∀ now' rows,
        (timegm now' ≤ timegm (expiry now expires_delta (timedelta_minutes 600)) →
         (uuid_of_str s = None →
          get_current_teacher initial_globals now' (Some tok) rows
          = Raise (unauthorized "Invalid teacher ID format"))
         ∧ (∀ u, uuid_of_str s = Some u →
              ((∀ r, r ∈ rows → teacher_id r ≠ u) →
               get_current_teacher initial_globals now' (Some tok) rows
               = Raise (unauthorized "Teacher not found"))
              ∧ (∀ before teacher after,
                   rows = (before ++ teacher :: after)%list →
                   teacher_id teacher = u →
                   Forall (fun r => teacher_id r ≠ u) before →
                   get_current_teacher initial_globals now' (Some tok) rows
                   = Return teacher)))
        ∧ (timegm (expiry now expires_delta (timedelta_minutes 600)) < timegm now' →
           get_current_teacher initial_globals now' (Some tok) rows
           = Raise (unauthorized "Could not validate credentials")).
Proof.
  intros Hdata.
  destruct (create_access_token_sub s now expires_delta data h Hdata)
    as (c & h' & Hrun & Htype & Hexp & Hc).
  exists (signed initial_globals c), h'. split; [exact Hrun|].
  intros now' rows.
  pose proof (decode_sub_token s _ now' c Hexp Hc) as Hdec.
  split; intros Hle.
  - destruct (Z.ltb_spec (timegm (expiry now expires_delta (timedelta_minutes 600)))
                (timegm now')); [lia|].
    rewrite (get_current_teacher_decoded _ _ _ c rows (signed_not_empty _ c) Hdec).
    rewrite Htype. unfold get. rewrite (sub_claims s c "sub" Hc) by done.
    rewrite decide_True by done. cbn [UUID]. split.
    + intros ->. reflexivity.
    + intros u ->. cbn [try_except bind]. split.
      * intros Hno. rewrite (teacher_by_id_None u rows Hno). reflexivity.
      * intros before teacher after -> Hid Hbefore.
        rewrite (teacher_by_id_first u before after teacher Hid Hbefore).
        reflexivity.
  - destruct (Z.ltb_spec (timegm (expiry now expires_delta (timedelta_minutes 600)))
                (timegm now')); [|lia].
    rewrite (get_current_teacher_token _ _ _ _ (signed_not_empty _ c)), Hdec.
    reflexivity.
Qed.

Lemma issued_dict_serialisable d kind e :
  json_only (issued_dict d kind e) ↔ issuable d.
Proof.
  split.
  - intros Hj k us Hk.
    destruct (decide (k ∈ ["exp"; "iat"; "nbf"; "type"])) as [|Hn]; [done|].
    rewrite !elem_of_cons, elem_of_nil in Hn.
    specialize (Hj k (Datetime us)).
    rewrite issued_dict_other, convert_time_claims_lookup in Hj by naive_solver.
    rewrite bool_decide_eq_false_2 in Hj
      by (rewrite !elem_of_cons, elem_of_nil; naive_solver).
    by destruct (Hj Hk).
  - intros Hi k v Hk. destruct (decide (k = "type")) as [->|Ht].
    { rewrite issued_dict_type in Hk. by simplify_eq. }
    destruct (decide (k = "exp")) as [->|He].
    { rewrite issued_dict_exp in Hk. by simplify_eq. }
    rewrite issued_dict_other, convert_time_claims_lookup in Hk by done.
    case_bool_decide as Htime.
    + destruct (d !! k) as [[j|us]|]; simplify_eq/=; done.
    + destruct v as [j|us]; [by eexists|]. specialize (Hi k us Hk).
      destruct Htime. rewrite list_elem_of_In in Hi |- *.
      simpl in Hi |- *. intuition congruence.
Qed.

(** X11. Issuing raises nothing but [TypeError], and exactly for a
    dictionary that holds a [datetime] outside [exp], [iat], [nbf] and
    [type]: every other dictionary gets its token, in which a [datetime]
    under [iat] has become its whole second. *)
Theorem create_token_serialisable (now : Z) (data : loc)
    (expires_delta : option Z) (h : heap) (d : gmap string pyval) :
  h !! data = Some d →
  (issuable d →
   (∃ tok h', create_access_token initial_globals now data expires_delta h
              = (Return tok, h'))
   ∧ (∃ tok h', create_refresh_token initial_globals now data expires_delta h
                = (Return tok, h')))
  ∧ (¬ issuable d →
     (create_access_token initial_globals now data expires_delta h).1
     = Raise TypeError
     ∧ (create_refresh_token initial_globals now data expires_delta h).1
       = Raise TypeError)
  ∧ (∀ us tok h',
       d !! "iat" = Some (Datetime us) →
       create_access_token initial_globals now data expires_delta h
       = (Return tok, h') →
       ∃ c, token_claims tok = Some c ∧ c !! "iat" = Some (JInt (timegm us))).
Proof.
  intros Hdata.
  rewrite create_access_token_run, create_refresh_token_run, Hdata.
  cbv zeta. cbn [default fst]. unfold id. split; [|split].
  - intros Hi. split.
    + rewrite (dumps_json_only _ (proj2 (issued_dict_serialisable d "access" _) Hi)).
      cbn [bind]. rewrite (jws_sign_HS256 _ _ initial_algorithm). eauto.
    + rewrite (dumps_json_only _ (proj2 (issued_dict_serialisable d "refresh" _) Hi)).
      cbn [bind]. rewrite (jws_sign_HS256 _ _ initial_algorithm). eauto.
  - intros Hn. unfold dumps.
    rewrite !bool_decide_eq_false_2; [split; reflexivity|..];
      intros Hj; apply Hn; revert Hj; apply issued_dict_serialisable.
  - intros us tok h' Hiat Htok. apply (f_equal fst) in Htok. cbn [fst] in Htok.
    destruct (sign_issued initial_globals d "access"
                (expiry now expires_delta
                   (timedelta_minutes (ACCESS_TOKEN_EXPIRE_MINUTES initial_globals)))
                _ initial_algorithm eq_refl) as (Hret & _ & _).
    destruct (Hret tok Htok) as (c & -> & _ & _ & Hother).
    exists c. split; [done|]. rewrite Hother by done.
    rewrite convert_time_claims_lookup, Hiat.
    rewrite bool_decide_eq_true_2; [done|]. rewrite !elem_of_cons. tauto.
Qed.

End TokensAtTheGate.

(** A refresh token presented to the gate at once, against an empty
    table. *)
Lemma refresh_token_refused_test :
  ∃ tok h',
    AuthUtils.create_refresh_token (H:=Demo.platform)
      (AuthUtils.initial_globals (H:=Demo.platform)) 0 1%positive None
      {[ 1%positive := {[ "sub" := Json (JStr "42") ]} ]}
    = (Return tok, h')
    ∧ AuthUtils.get_current_teacher (H:=Demo.platform)
        (AuthUtils.initial_globals (H:=Demo.platform)) 0 (Some tok) []
      = Raise (AuthUtils.unauthorized "Invalid token type").
Proof.
  destruct (refresh_token_refused (H:=Demo.platform) "42" 0 0 None 1%positive
              {[ 1%positive := {[ "sub" := Json (JStr "42") ]} ]} []
              (lookup_singleton_eq _ _))
    as (tok & h' & Hrun & _ & Hgate); [by vm_compute|].
  exists tok, h'. exact (conj Hrun Hgate).
Defined.

(** The scenario of the test [test_get_current_user_authenticated]: the
    access token of teacher 42, presented at once, yields her row. *)
Lemma access_token_admitted_test :
  let teacher := {| teacher_id := 42;
                    email := "teacher@test.com";
                    teacher_name := "Test Teacher";
                    hashed_password := "";
                    reset_password_code := None;
                    code_expiry_time := None |} in
  ∃ tok h',
    AuthUtils.create_access_token (H:=Demo.platform)
      (AuthUtils.initial_globals (H:=Demo.platform)) 0 1%positive None
      {[ 1%positive := {[ "sub" := Json (JStr "42") ]} ]}
    = (Return tok, h')
    ∧ AuthUtils.get_current_teacher (H:=Demo.platform)
        (AuthUtils.initial_globals (H:=Demo.platform)) 0 (Some tok) [teacher]
      = Return teacher.
Proof.
  intros teacher.
  destruct (access_token_admitted (H:=Demo.platform) "42" 0 None 1%positive
              {[ 1%positive := {[ "sub" := Json (JStr "42") ]} ]}
              (lookup_singleton_eq _ _))
    as (tok & h' & Hrun & Hgate).
  exists tok, h'. split; [exact Hrun|].
  assert (Hvalid : Jose.timegm 0
                   ≤ Jose.timegm (AuthUtils.expiry 0 None
                                    (AuthUtils.timedelta_minutes 600)))
    by (vm_compute; discriminate).
  destruct (proj1 (Hgate 0 [teacher]) Hvalid) as [_ Hrows].
  exact (proj2 (Hrows 42 eq_refl) [] teacher [] eq_refl eq_refl (Forall_nil_2 _)).
Defined.

(** A dictionary with a [datetime] under a name of the caller's own. *)
Lemma create_token_serialisable_test :
  (AuthUtils.create_access_token (H:=Demo.platform)
     (AuthUtils.initial_globals (H:=Demo.platform)) 0 1%positive None
     {[ 1%positive := {[ "issued" := Datetime 5 ]} ]}).1
  = Raise TypeError.
Proof.
  refine (proj1 (proj1 (proj2 (create_token_serialisable (H:=Demo.platform) 0
                                 1%positive None
                                 {[ 1%positive := {[ "issued" := Datetime 5 ]} ]}
                                 {[ "issued" := Datetime 5 ]}
                                 (lookup_singleton_eq _ _))) _)).
  intros Hi. specialize (Hi "issued" 5 (lookup_singleton_eq _ _)).
  apply list_elem_of_In in Hi. simpl in Hi. intuition discriminate.
Defined.

(** ** Cookies *)

Section CookieFacts.
Context `{Platform}.
Import Jose AuthUtils Props Cookies.

Lemma set_auth_cookies_access g (jar : gmap string cookie) a r :
  set_auth_cookies g jar a r !! "access_token"
  = Some {| value := a; httponly := true; secure := COOKIE_SECURE g;
            samesite := COOKIE_SAMESITE g;
            max_age := ACCESS_TOKEN_EXPIRE_MINUTES g * 60;
            domain := COOKIE_DOMAIN g; path := "/" |}.
Proof.
  unfold set_auth_cookies. cbv zeta.
  rewrite lookup_insert_ne by discriminate. apply lookup_insert_eq.
Qed.

Lemma set_auth_cookies_refresh g (jar : gmap string cookie) a r :
  set_auth_cookies g jar a r !! "refresh_token"
  = Some {| value := r; httponly := true; secure := COOKIE_SECURE g;
            samesite := COOKIE_SAMESITE g;
            max_age := REFRESH_TOKEN_EXPIRE_DAYS g * 24 * 60 * 60;
            domain := COOKIE_DOMAIN g; path := "/" |}.
Proof. unfold set_auth_cookies. cbv zeta. apply lookup_insert_eq. Qed.

Lemma set_auth_cookies_other g (jar : gmap string cookie) a r k :
  k ≠ "access_token" → k ≠ "refresh_token" →
  set_auth_cookies g jar a r !! k = jar !! k.
Proof.
  intros Ha Hr. unfold set_auth_cookies. cbv zeta.
  rewrite lookup_insert_ne by congruence. apply lookup_insert_ne. congruence.
Qed.

(** X12. What [set_auth_cookies] stores is what the gate reads: the
    access cookie holds the access token, so the gate judges the client
    by that token; both cookies are HTTP-only and scoped to [/]; a cookie
    of the same name is replaced, and every other cookie is left alone. *)
Theorem set_auth_cookies_stores (g : globals) (jar : gmap string cookie)
    (a r : token) :
  access_token_cookie (set_auth_cookies g jar a r) = Some a
  ∧ value <$> set_auth_cookies g jar a r !! "refresh_token" = Some r
  ∧ (∀ now rows,
       get_current_teacher g now
         (access_token_cookie (set_auth_cookies g jar a r)) rows
       = get_current_teacher g now (Some a) rows)
  ∧ (∀ k c, set_auth_cookies g jar a r !! k = Some c →
            (k = "access_token" ∨ k = "refresh_token") →
            httponly c = true ∧ path c = "/" ∧ domain c = COOKIE_DOMAIN g
            ∧ secure c = COOKIE_SECURE g ∧ samesite c = COOKIE_SAMESITE g)
  ∧ (∀ k, k ≠ "access_token" → k ≠ "refresh_token" →
          set_auth_cookies g jar a r !! k = jar !! k).
Proof.
  assert (Ha : access_token_cookie (set_auth_cookies g jar a r) = Some a).
  { unfold access_token_cookie. by rewrite set_auth_cookies_access. }
  split; [exact Ha|]. split; [by rewrite set_auth_cookies_refresh|].
  split; [intros now rows; by rewrite Ha|]. split.
  - intros k c Hk [->| ->].
    + rewrite set_auth_cookies_access in Hk. by injection Hk as <-.
    + rewrite set_auth_cookies_refresh in Hk. by injection Hk as <-.
  - apply set_auth_cookies_other.
Qed.

(** X13. The cookies live as long as the tokens of the default lifetime:
    for a token issued without [expires_delta], the [max_age] of its
    cookie is the distance, in seconds, from the time of issue to the
    [exp] of the token.  The [max_age] does not look at the token, so a
    token issued with an explicit delta gets the same cookie lifetime. *)
Theorem cookie_lifetime_is_token_lifetime (g : globals) (now : Z) (data : loc)
    (h : heap) (jar : gmap string cookie) :
  ALGORITHM g = "HS256" →
  (∀ a ha r, create_access_token g now data None h = (Return a, ha) →
     ∃ c e ck, token_claims a = Some c ∧ c !! "exp" = Some (JInt e)
               ∧ set_auth_cookies g jar a r !! "access_token" = Some ck
               ∧ e = timegm now + max_age ck)
  ∧ (∀ a r hr, create_refresh_token g now data None h = (Return r, hr) →
       ∃ c e ck, token_claims r = Some c ∧ c !! "exp" = Some (JInt e)
                 ∧ set_auth_cookies g jar a r !! "refresh_token" = Some ck
                 ∧ e = timegm now + max_age ck)
  ∧ (∀ a a' r r' k, max_age <$> set_auth_cookies g jar a r !! k
                   = max_age <$> set_auth_cookies g jar a' r' !! k).
Proof.
  intros Hg. split; [|split].
  - intros a ha r Hrun. apply (f_equal fst) in Hrun.
    rewrite create_access_token_run in Hrun. cbv zeta in Hrun. cbn [fst] in Hrun.
    destruct (sign_issued g (default ∅ (h !! data)) "access"
                (expiry now None (timedelta_minutes (ACCESS_TOKEN_EXPIRE_MINUTES g)))
                _ Hg eq_refl) as (Hret & _ & _).
    destruct (Hret a Hrun) as (c & -> & _ & Hexp & _).
    eexists c, _, _. split; [reflexivity|]. split; [exact Hexp|].
    split; [apply set_auth_cookies_access|]. cbn [max_age expiry].
    apply timegm_add_minutes.
  - intros a r hr Hrun. apply (f_equal fst) in Hrun.
    rewrite create_refresh_token_run in Hrun. cbv zeta in Hrun. cbn [fst] in Hrun.
    destruct (sign_issued g (default ∅ (h !! data)) "refresh"
                (expiry now None (timedelta_days (REFRESH_TOKEN_EXPIRE_DAYS g)))
                _ Hg eq_refl) as (Hret & _ & _).
    destruct (Hret r Hrun) as (c & -> & _ & Hexp & _).
    eexists c, _, _. split; [reflexivity|]. split; [exact Hexp|].
    split; [apply set_auth_cookies_refresh|]. cbn [max_age expiry].
    apply timegm_add_days.
  - intros a a' r r' k.
    destruct (String.eqb_spec k "access_token") as [->|Ha].
    { by rewrite !set_auth_cookies_access. }
    destruct (String.eqb_spec k "refresh_token") as [->|Hr].
    { by rewrite !set_auth_cookies_refresh. }
    by rewrite !set_auth_cookies_other.
Qed.

Lemma delete_cookie_set (key : string) (c : cookie) (jar : gmap string cookie) :
  jar !! key = Some c →
  delete_cookie key (domain c) (path c) jar = delete key jar.
Proof.
  intros Hk. unfold delete_cookie. rewrite Hk.
  by rewrite bool_decide_eq_true_2, String.eqb_refl.
Qed.

Lemma delete_cookie_other (key k : string) (d : option string) (p : string)
    (jar : gmap string cookie) :
  k ≠ key → delete_cookie key d p jar !! k = jar !! k.
Proof.
  intros Hk. unfold delete_cookie. destruct (jar !! key) as [c|]; [|reflexivity].
  destruct (_ && _); [|reflexivity]. apply lookup_delete_ne. congruence.
Qed.

(** X14. Logging out undoes logging in: clearing, under the same globals,
    the cookies that [set_auth_cookies] stored removes both, leaves every
    other cookie, and the gate then answers "Not authenticated".  A
    cookie that was set for another domain or path is not cleared. *)
Theorem clear_auth_cookies_after_set (g : globals) (jar : gmap string cookie)
    (a r : token) :
  clear_auth_cookies g (set_auth_cookies g jar a r) !! "access_token" = None
  ∧ clear_auth_cookies g (set_auth_cookies g jar a r) !! "refresh_token" = None
  ∧ (∀ k, k ≠ "access_token" → k ≠ "refresh_token" →
          clear_auth_cookies g (set_auth_cookies g jar a r) !! k = jar !! k)
  ∧ (∀ now rows,
       get_current_teacher g now
         (access_token_cookie (clear_auth_cookies g (set_auth_cookies g jar a r)))
         rows
       = Raise (unauthorized "Not authenticated"))
  ∧ (∀ (other : gmap string cookie) c,
       other !! "access_token" = Some c →
       domain c ≠ COOKIE_DOMAIN g ∨ path c ≠ "/" →
       clear_auth_cookies g other !! "access_token" = Some c).
Proof.
  assert (Hclear : clear_auth_cookies g (set_auth_cookies g jar a r)
                   = delete "refresh_token"
                       (delete "access_token" (set_auth_cookies g jar a r))).
  { unfold clear_auth_cookies. cbv zeta.
    pose proof (delete_cookie_set "access_token" _ _
                  (set_auth_cookies_access g jar a r)) as Ha.
    cbn [domain path] in Ha. rewrite Ha.
    assert (Hr : delete "access_token" (set_auth_cookies g jar a r)
                   !! "refresh_token"
                 = set_auth_cookies g jar a r !! "refresh_token")
      by (apply lookup_delete_ne; discriminate).
    rewrite set_auth_cookies_refresh in Hr.
    pose proof (delete_cookie_set "refresh_token" _ _ Hr) as Hd.
    cbn [domain path] in Hd. exact Hd. }
  assert (Hnone : clear_auth_cookies g (set_auth_cookies g jar a r)
                    !! "access_token" = None).
  { rewrite Hclear, lookup_delete_ne by discriminate. apply lookup_delete_eq. }
  split; [exact Hnone|]. split; [rewrite Hclear; apply lookup_delete_eq|].
  split; [|split].
  - intros k Ha Hr. rewrite Hclear, !lookup_delete_ne by congruence.
    by apply set_auth_cookies_other.
  - intros now rows. unfold access_token_cookie. by rewrite Hnone.
  - intros other c Hc Hdiff. unfold clear_auth_cookies. cbv zeta.
    rewrite delete_cookie_other by discriminate.
    unfold delete_cookie. rewrite Hc.
    destruct Hdiff as [Hd|Hp].
    + by rewrite bool_decide_eq_false_2.
    + rewrite (proj2 (String.eqb_neq _ _) Hp), andb_false_r. exact Hc.
Qed.

End CookieFacts.

(** The access token of [{"sub": "42"}] and its cookie, both made at the
    epoch with the default settings. *)
Lemma cookie_lifetime_is_token_lifetime_test :
  ∃ a ha c e ck,
    AuthUtils.create_access_token (H:=Demo.platform)
      (AuthUtils.initial_globals (H:=Demo.platform)) 0 1%positive None
      {[ 1%positive := {[ "sub" := Json (JStr "42") ]} ]}
    = (Return a, ha)
    ∧ Props.token_claims a = Some c
    ∧ c !! "exp" = Some (JInt e)
    ∧ AuthUtils.set_auth_cookies
        (AuthUtils.initial_globals (H:=Demo.platform)) ∅ a a !! "access_token"
      = Some ck
    ∧ e = Jose.timegm 0 + AuthUtils.max_age ck.
Proof.
  destruct (create_access_token_sub (H:=Demo.platform) "42" 0 None 1%positive
              {[ 1%positive := {[ "sub" := Json (JStr "42") ]} ]}
              (lookup_singleton_eq _ _))
    as (c0 & h' & Hrun & _).
  destruct (proj1 (cookie_lifetime_is_token_lifetime (H:=Demo.platform)
                     (AuthUtils.initial_globals (H:=Demo.platform)) 0 1%positive
                     {[ 1%positive := {[ "sub" := Json (JStr "42") ]} ]} ∅
                     eq_refl)
              _ _ (Props.signed (H:=Demo.platform)
                     (AuthUtils.initial_globals (H:=Demo.platform)) c0) Hrun)
    as (c & e & ck & Hc & He & Hck & Hage).
  eexists _, h', c, e, ck. exact (conj Hrun (conj Hc (conj He (conj Hck Hage)))).
Defined.

(** ** Email *)

Section MailFacts.
Import Mail Props2.

Lemma str_empty_spec (s : string) : str_empty s = true ↔ s = "".
Proof. unfold str_empty. apply String.eqb_eq. Qed.

Lemma unconfigured_spec (g : smtp_globals) :
  str_empty (SMTP_USER g) || str_empty (SMTP_PASSWORD g) = false ↔ configured g.
Proof.
  unfold configured. rewrite orb_false_iff, <- !not_true_iff_false.
  by rewrite !str_empty_spec.
Qed.

(** X15. [send_email] goes to the mail server exactly when both a user
    and a password are configured, and then once, with the configured
    host, port and credentials.  With either of them missing it returns
    normally, whatever the server would have answered, and only prints
    the message: missing configuration is not reported to the caller. *)
Theorem send_email_attempts (g : smtp_globals) (server : smtp_server)
    (to_email subject body : string) (html : bool) :
  (configured g ↔
   ∃ m, filter (λ e, is_attempt e = true)
          (send_email g server to_email subject body html).2
        = [Attempt (SMTP_HOST g) (SMTP_PORT g) (SMTP_USER g) (SMTP_PASSWORD g) m])
  ∧ (¬ configured g ↔
     filter (λ e, is_attempt e = true)
       (send_email g server to_email subject body html).2 = [])
  ∧ (¬ configured g →
     send_email g server to_email subject body html
     = (Return tt, [Printed_not_configured to_email subject body])).
Proof.
  unfold send_email.
  destruct (str_empty (SMTP_USER g) || str_empty (SMTP_PASSWORD g)) eqn:E.
  - assert (Hn : ¬ configured g).
    { intros Hc. apply unconfigured_spec in Hc. congruence. }
    split; [|split]; [|done|done].
    split; [done|]. intros (m & Hm). discriminate Hm.
  - assert (Hc : configured g) by by apply unconfigured_spec.
    cbv zeta. split; [|split]; [|split|done].
    + split; [intros _|done]. eexists.
      destruct (server _ _ _ _ _) as [[]|]; reflexivity.
    + done.
    + intros Hf. destruct (server _ _ _ _ _) as [[]|]; discriminate Hf.
Qed.

(** X16. With the settings complete, [send_email] returns exactly when
    the server took the message; every failure reaches the caller as an
    [HTTPException] with status 500 and no other exception does; the
    detail tells the three kinds of failure apart.  The message the
    server is handed carries the subject, recipient and body of the call,
    the sender [name <address>] of the settings, and one part of subtype
    [html] or [plain]. *)
Theorem send_email_outcomes (g : smtp_globals) (server : smtp_server)
    (to_email subject body : string) (html : bool) :
  configured g →
  let m := {| msg_subject := subject;
              msg_from := SMTP_FROM_NAME g +:+ " <" +:+ SMTP_FROM_EMAIL g +:+ ">";
              msg_to := to_email;
              msg_subtype := if html then "html" else "plain";
              msg_body := body |} in
  let answer :=
    server (SMTP_HOST g) (SMTP_PORT g) (SMTP_USER g) (SMTP_PASSWORD g) m in
  let r := send_email g server to_email subject body html in
  Attempt (SMTP_HOST g) (SMTP_PORT g) (SMTP_USER g) (SMTP_PASSWORD g) m ∈ r.2
  ∧ (r.1 = Return tt ↔ answer = None)
  ∧ (∀ x, r.1 = Raise x →
       Py.status_of x = Some 500
       ∧ ∃ failure, answer = Some failure
           ∧ (Py.detail_of x = Some "Email service authentication failed"
              ↔ failure = SMTPAuthenticationError)
           ∧ (Py.detail_of x = Some "Failed to send email"
              ↔ failure = SMTPException)
           ∧ (Py.detail_of x
              = Some "An unexpected error occurred while sending email"
              ↔ failure = OtherException))
  ∧ (Printed_sent to_email ∈ r.2 ↔ answer = None).
Proof.
  intros Hc m answer r. subst r. unfold send_email.
  rewrite (proj2 (unconfigured_spec g) Hc). cbv zeta.
  fold m. fold answer. destruct answer as [[]|]; cbn [fst snd].
  all: split; [apply list_elem_of_here|].
  all: rewrite !elem_of_cons, elem_of_nil.
  - split; [split; intros Hr; discriminate Hr|]. split.
    + intros x [= <-]. split; [reflexivity|]. eexists. split; [reflexivity|].
      cbn [Py.detail_of internal_error].
      repeat split; intros Hr; try reflexivity; discriminate Hr.
    + split; [intros [Hr|[Hr|[]]]; discriminate Hr | intros Hr; discriminate Hr].
  - split; [split; intros Hr; discriminate Hr|]. split.
    + intros x [= <-]. split; [reflexivity|]. eexists. split; [reflexivity|].
      cbn [Py.detail_of internal_error].
      repeat split; intros Hr; try reflexivity; discriminate Hr.
    + split; [intros [Hr|[Hr|[]]]; discriminate Hr | intros Hr; discriminate Hr].
  - split; [split; intros Hr; discriminate Hr|]. split.
    + intros x [= <-]. split; [reflexivity|]. eexists. split; [reflexivity|].
      cbn [Py.detail_of internal_error].
      repeat split; intros Hr; try reflexivity; discriminate Hr.
    + split; [intros [Hr|[Hr|[]]]; discriminate Hr | intros Hr; discriminate Hr].
  - split; [split; reflexivity|]. split.
    + intros x Hr. discriminate Hr.
    + split; [reflexivity|]. intros _. right. left. reflexivity.
Qed.

End MailFacts.

(** A server that refuses the login, with complete settings. *)
Lemma send_email_outcomes_test :
  let g := {| Mail.SMTP_HOST := "smtp.gmail.com"; Mail.SMTP_PORT := 587;
              Mail.SMTP_USER := "sudar"; Mail.SMTP_PASSWORD := "secret";
              Mail.SMTP_FROM_EMAIL := "sudar"; Mail.SMTP_FROM_NAME := "Sudar AI" |} in
  (Mail.send_email g (λ _ _ _ _ _, Some Mail.SMTPAuthenticationError)
     "teacher@test.com" "Your code" "123456" false).1
  = Raise (Mail.internal_error "Email service authentication failed")
  ∧ ∀ x, (Mail.send_email g (λ _ _ _ _ _, Some Mail.SMTPAuthenticationError)
            "teacher@test.com" "Your code" "123456" false).1 = Raise x →
         Py.status_of x = Some 500.
Proof.
  intros g. split; [vm_compute; reflexivity|]. intros x Hx.
  assert (Hc : Props2.configured g) by (split; discriminate).
  pose proof (send_email_outcomes g
                (λ _ _ _ _ _, Some Mail.SMTPAuthenticationError)
                "teacher@test.com" "Your code" "123456" false Hc) as P.
  cbv zeta in P. destruct P as (_ & _ & P & _).
  exact (proj1 (P x Hx)).
Defined.
